(** * SPH fluid simulator and spatial hash grid: model and properties

    Shallow embedding of [src/fluid_physics/sph_simulator.py],
    [src/utils/helpers.py] (class [SpatialHashGrid]) and the two
    dictionaries of [config.py] that the simulator reads.

    Number model.  The Python code computes with IEEE floats (a mix of
    [float32] arrays and [float64] scalars).  Here every float is an
    exact real number of [R]: rounding, overflow, NaN and infinities are
    outside the model.  [np.pi] is [PI], [np.linalg.norm] is the exact
    Euclidean norm, [int(x)] truncates towards zero, [np.ceil] is the
    ceiling.  A division of two Python scalars raises
    [ZeroDivisionError] on a zero divisor and is modelled in the error
    monad; a division that involves a numpy value does not raise and is
    the total division of [R]. *)

From Stdlib Require Import Reals Lra Lia ZArith List R_Ifp.
From stdpp Require Import gmap list strings.

Open Scope R_scope.

(** ** Python scalars and numpy vectors *)

(** Exceptions the modelled code can raise. *)
Inductive exn : Type :=
| ZeroDivisionError
| TypeError
| ValueError
| OverflowError.

Inductive result (A : Type) : Type :=
| Ok (a : A)
| Raise (e : exn).

Arguments Ok {A} a.
Arguments Raise {A} e.

Definition bind {A B : Type} (m : result A) (k : A -> result B) : result B :=
  match m with
  | Ok a => k a
  | Raise e => Raise e
  end.

Notation "'let!' x ':=' m 'in' k" := (bind m (fun x => k))
  (at level 10, x name, m at level 100, k at level 200).

(** [a / b] on two Python floats. *)
Definition py_div (a b : R) : result R :=
  if Req_dec_T b 0 then Raise ZeroDivisionError else Ok (a / b).

(** [np.ceil]: the least integer not below [x]. *)
Definition np_ceil (x : R) : R := IZR (- Int_part (- x)).

(** [int(x)] on a float: truncation towards zero. *)
Definition py_int (x : R) : Z :=
  if Rle_dec 0 x then Int_part x else (- Int_part (- x))%Z.

(** [int(x / c)] for a numpy scalar [x] and a Python float [c]: numpy
    divides by zero without raising and yields nan or an infinity,
    which [int] then refuses. *)
Definition int_np_div (x c : R) : result Z :=
  if Req_dec_T c 0 then
    if Req_dec_T x 0 then Raise ValueError else Raise OverflowError
  else Ok (py_int (x / c)).

(** [n ** (1/3)] on a Python int.  A negative base gives a complex
    number, which [np.ceil] refuses with a [TypeError]; the caller
    models that case. *)
Definition pow_third (n : Z) : R :=
  if Z.eq_dec n 0%Z then 0 else Rpower (IZR n) (1 / 3).

(** [range(n)]. *)
Definition range (n : Z) : list Z := map Z.of_nat (seq 0 (Z.to_nat n)).

(** [range(a, b)]. *)
Definition range2 (a b : Z) : list Z :=
  map (fun i => (a + Z.of_nat i)%Z) (seq 0 (Z.to_nat (b - a))).

(** A numpy array of shape (3,). *)
Record vec3 : Type := Vec3 { vx : R; vy : R; vz : R }.

Inductive axis : Type := X | Y | Z3.

(** [v[i]] for [i] in [range(3)]. *)
Definition vget (v : vec3) (i : axis) : R :=
  match i with X => vx v | Y => vy v | Z3 => vz v end.

(** [v[i] = x]. *)
Definition vset (v : vec3) (i : axis) (x : R) : vec3 :=
  match i with
  | X => Vec3 x (vy v) (vz v)
  | Y => Vec3 (vx v) x (vz v)
  | Z3 => Vec3 (vx v) (vy v) x
  end.

(** [range(3)] as array indices. *)
Definition axes : list axis := [X; Y; Z3].

Definition vzero : vec3 := Vec3 0 0 0.
Definition vadd (a b : vec3) : vec3 := Vec3 (vx a + vx b) (vy a + vy b) (vz a + vz b).
Definition vsub (a b : vec3) : vec3 := Vec3 (vx a - vx b) (vy a - vy b) (vz a - vz b).
Definition vscale (c : R) (a : vec3) : vec3 := Vec3 (c * vx a) (c * vy a) (c * vz a).
Definition vmul (a : vec3) (c : R) : vec3 := Vec3 (vx a * c) (vy a * c) (vz a * c).
Definition vdiv (a : vec3) (c : R) : vec3 := Vec3 (vx a / c) (vy a / c) (vz a / c).
(** [np.dot]. *)
Definition dot (a b : vec3) : R := vx a * vx b + vy a * vy b + vz a * vz b.
(** [np.linalg.norm]. *)
Definition norm (a : vec3) : R := sqrt (dot a a).

(** ** config.py *)

Module Config.

(** The keys of [FLUID_CONFIG]. *)
Record FluidConfig : Type := {
  num_particles : Z;
  particle_mass : R;
  rest_density : R;
  gas_constant : R;
  viscosity : R;
  gravity : vec3;
  smoothing_radius : R;
  time_step : R;
  damping : R
}.

(** The keys of [BOUNDARY_CONFIG]. *)
Record BoundaryConfig : Type := {
  min_bounds : vec3;
  max_bounds : vec3;
  restitution : R
}.

End Config.

Definition FLUID_CONFIG : Config.FluidConfig := {|
  Config.num_particles := 500;
  Config.particle_mass := 0.02;
  Config.rest_density := 1000;
  Config.gas_constant := 2000;
  Config.viscosity := 0.5;
  Config.gravity := Vec3 0 (-9.8) 0;
  Config.smoothing_radius := 0.05;
  Config.time_step := 0.016;
  Config.damping := 0.95
|}.

Definition BOUNDARY_CONFIG : Config.BoundaryConfig := {|
  Config.min_bounds := Vec3 (-1) (-1) (-1);
  Config.max_bounds := Vec3 1 1 1;
  Config.restitution := 0.3
|}.

(** ** sph_simulator.py: the state *)

(** class [Particle]. *)
Record Particle : Type := {
  position : vec3;
  velocity : vec3;
  force : vec3;
  density : R;
  pressure : R;
  mass : R
}.

(** [Particle.__init__]: the mass is read from the module-level
    [FLUID_CONFIG], whatever configuration the simulator was given. *)
Definition Particle_init (pos : vec3) : Particle := {|
  position := pos;
  velocity := vzero;
  force := vzero;
  density := 0;
  pressure := 0;
  mass := Config.particle_mass FLUID_CONFIG
|}.

(** The attributes of an [SPHFluidSimulator] instance. *)
Record Simulator : Type := {
  config : Config.FluidConfig;
  boundary_config : Config.BoundaryConfig;
  particles : list Particle;
  num_particles : Z;
  rest_density : R;
  gas_constant : R;
  viscosity : R;
  gravity : vec3;
  smoothing_radius : R;
  h : R;
  h2 : R;
  dt : R;
  damping : R;
  poly6_constant : R;
  spiky_constant : R;
  viscosity_constant : R
}.

Definition set_particles (s : Simulator) (ps : list Particle) : Simulator := {|
  config := config s;
  boundary_config := boundary_config s;
  particles := ps;
  num_particles := num_particles s;
  rest_density := rest_density s;
  gas_constant := gas_constant s;
  viscosity := viscosity s;
  gravity := gravity s;
  smoothing_radius := smoothing_radius s;
  h := h s;
  h2 := h2 s;
  dt := dt s;
  damping := damping s;
  poly6_constant := poly6_constant s;
  spiky_constant := spiky_constant s;
  viscosity_constant := viscosity_constant s
|}.

Definition set_dt (s : Simulator) (d : R) : Simulator := {|
  config := config s;
  boundary_config := boundary_config s;
  particles := particles s;
  num_particles := num_particles s;
  rest_density := rest_density s;
  gas_constant := gas_constant s;
  viscosity := viscosity s;
  gravity := gravity s;
  smoothing_radius := smoothing_radius s;
  h := h s;
  h2 := h2 s;
  dt := d;
  damping := damping s;
  poly6_constant := poly6_constant s;
  spiky_constant := spiky_constant s;
  viscosity_constant := viscosity_constant s
|}.

(** ** Construction *)

(** The state of the three nested loops of [_initialize_particles]:
    the list built so far and [count]. *)
Definition grid_state : Type := (list Particle * Z)%type.

Section InitializeParticles.

Variable n : Z.                  (* self.num_particles *)
Variable particles_per_dim : Z.
Variable spacing : R.

Definition grid_point (i j k : Z) : vec3 :=
  Vec3 ((IZR i - IZR particles_per_dim / 2) * spacing)
       ((IZR j - IZR particles_per_dim / 2) * spacing + 0.5)
       ((IZR k - IZR particles_per_dim / 2) * spacing).

(** The innermost loop; [break] leaves it with the state unchanged. *)
Fixpoint loop_k (ks : list Z) (i j : Z) (st : grid_state) : grid_state :=
  match ks with
  | [] => st
  | k :: ks' =>
      if (snd st >=? n)%Z then st
      else loop_k ks' i j (fst st ++ [Particle_init (grid_point i j k)], (snd st + 1)%Z)
  end.

Fixpoint loop_j (js : list Z) (i : Z) (st : grid_state) : grid_state :=
  match js with
  | [] => st
  | j :: js' =>
      let st' := loop_k (range particles_per_dim) i j st in
      if (snd st' >=? n)%Z then st' else loop_j js' i st'
  end.

Fixpoint loop_i (il : list Z) (st : grid_state) : grid_state :=
  match il with
  | [] => st
  | i :: il' =>
      let st' := loop_j (range particles_per_dim) i st in
      if (snd st' >=? n)%Z then st' else loop_i il' st'
  end.

End InitializeParticles.

(** [_initialize_particles]. *)
Definition _initialize_particles (s : Simulator) : result Simulator :=
  if (num_particles s <? 0)%Z then Raise TypeError
  else
    let particles_per_dim := py_int (np_ceil (pow_third (num_particles s))) in
    let spacing := smoothing_radius s * 0.8 in
    let st := loop_i (num_particles s) particles_per_dim spacing
                     (range particles_per_dim) ([], 0%Z) in
    Ok (set_particles s (fst st)).

(** [config or FLUID_CONFIG]; [None] is the default argument. *)
Definition config_or_default (cfg : option Config.FluidConfig) : Config.FluidConfig :=
  match cfg with Some c => c | None => FLUID_CONFIG end.

(** [SPHFluidSimulator.__init__]. *)
Definition SPHFluidSimulator_init (cfg : option Config.FluidConfig) : result Simulator :=
  let c := config_or_default cfg in
  let hh := Config.smoothing_radius c in
  let! poly6 := py_div 315 (64 * PI * hh ^ 9) in
  let! spiky := py_div (-45) (PI * hh ^ 6) in
  let! visc := py_div 45 (PI * hh ^ 6) in
  _initialize_particles {|
    config := c;
    boundary_config := BOUNDARY_CONFIG;
    particles := [];
    num_particles := Config.num_particles c;
    rest_density := Config.rest_density c;
    gas_constant := Config.gas_constant c;
    viscosity := Config.viscosity c;
    gravity := Config.gravity c;
    smoothing_radius := hh;
    h := hh;
    h2 := hh * hh;
    dt := Config.time_step c;
    damping := Config.damping c;
    poly6_constant := poly6;
    spiky_constant := spiky;
    viscosity_constant := visc
  |}.

(** [reset]. *)
Definition reset (s : Simulator) : result Simulator := _initialize_particles s.


(** ** Kernels *)

(** [_poly6_kernel]. *)
Definition _poly6_kernel (s : Simulator) (r2 : R) : R :=
  if Rge_dec r2 (h2 s) then 0
  else
    let diff := h2 s - r2 in
    poly6_constant s * diff * diff * diff.

(** [_spiky_gradient]; the guard is [r >= self.h or r < 1e-6]. *)
Definition _spiky_gradient (s : Simulator) (r_vec : vec3) (r : R) : vec3 :=
  if Rge_dec r (h s) then vzero
  else if Rlt_dec r 1e-6 then vzero
  else
    let diff := h s - r in
    vscale (spiky_constant s * diff * diff) (vdiv r_vec r).

(** [_viscosity_laplacian]. *)
Definition _viscosity_laplacian (s : Simulator) (r : R) : R :=
  if Rge_dec r (h s) then 0
  else viscosity_constant s * (h s - r).

(** ** The per-tick stages

    Every stage is a [for particle in self.particles] loop that mutates
    the particle objects of the one shared list.  [for_each_particle]
    keeps that shape: the body of iteration [i] reads the list as the
    earlier iterations left it and overwrites slot [i]. *)

Definition loop_step (body : list Particle -> nat -> Particle -> Particle)
    (cur : list Particle) (i : nat) : list Particle :=
  match cur !! i with
  | Some p => <[i := body cur i p]> cur
  | None => cur
  end.

Definition for_each_particle
    (body : list Particle -> nat -> Particle -> Particle)
    (ps : list Particle) : list Particle :=
  fold_left (loop_step body) (seq 0 (length ps)) ps.

(** [enumerate(self.particles)]: the position of a particle in the list
    stands for its object identity. *)
Definition enumerate (ps : list Particle) : list (nat * Particle) :=
  combine (seq 0 (length ps)) ps.

Definition set_density_pressure (p : Particle) (d pr : R) : Particle := {|
  position := position p;
  velocity := velocity p;
  force := force p;
  density := d;
  pressure := pr;
  mass := mass p
|}.

Definition set_force (p : Particle) (f : vec3) : Particle := {|
  position := position p;
  velocity := velocity p;
  force := f;
  density := density p;
  pressure := pressure p;
  mass := mass p
|}.

Definition set_position_velocity (p : Particle) (x v : vec3) : Particle := {|
  position := x;
  velocity := v;
  force := force p;
  density := density p;
  pressure := pressure p;
  mass := mass p
|}.

(** One iteration of the inner loop of [_compute_density_pressure]:
    [d] is [particle.density] so far. *)
Definition density_step (s : Simulator) (particle : Particle) (d : R)
    (neighbor : Particle) : R :=
  let r_vec := vsub (position particle) (position neighbor) in
  let r2 := dot r_vec r_vec in
  if Rlt_dec r2 (h2 s) then d + mass particle * _poly6_kernel s r2 else d.

Definition density_body (s : Simulator) (cur : list Particle) (i : nat)
    (particle : Particle) : Particle :=
  let d := fold_left (density_step s particle) cur 0 in
  set_density_pressure particle d (gas_constant s * (d - rest_density s)).

(** [_compute_density_pressure]. *)
Definition _compute_density_pressure (s : Simulator) : Simulator :=
  set_particles s (for_each_particle (density_body s) (particles s)).

(** One iteration of the inner loop of [_compute_forces]; [acc] is
    [(pressure_force, viscosity_force)], [i] the index of [particle] and
    [jn] the index and value of [neighbor]. *)
Definition force_step (s : Simulator) (i : nat) (particle : Particle)
    (acc : vec3 * vec3) (jn : nat * Particle) : vec3 * vec3 :=
  let neighbor := snd jn in
  if Nat.eq_dec i (fst jn) then acc
  else
    let r_vec := vsub (position particle) (position neighbor) in
    let r := norm r_vec in
    if Rlt_dec r (h s) then
      let pressure_term :=
        (pressure particle + pressure neighbor) / (2 * density neighbor) in
      let pressure_force :=
        vadd (fst acc)
             (vscale (mass particle * pressure_term) (_spiky_gradient s r_vec r)) in
      let velocity_diff := vsub (velocity neighbor) (velocity particle) in
      let viscosity_force :=
        vadd (snd acc)
             (vmul (vscale (viscosity s * mass particle)
                           (vdiv velocity_diff (density neighbor)))
                   (_viscosity_laplacian s r)) in
      (pressure_force, viscosity_force)
    else acc.

(** The inner loop of [_compute_forces] over the neighbours [ns]. *)
Definition force_loop (s : Simulator) (i : nat) (particle : Particle)
    (ns : list (nat * Particle)) : vec3 * vec3 :=
  fold_left (force_step s i particle) ns (vzero, vzero).

Definition force_body (s : Simulator) (cur : list Particle) (i : nat)
    (particle : Particle) : Particle :=
  let acc := force_loop s i particle (enumerate cur) in
  set_force particle
    (vadd (vadd (fst acc) (snd acc)) (vmul (gravity s) (density particle))).

(** [_compute_forces]. *)
Definition _compute_forces (s : Simulator) : Simulator :=
  set_particles s (for_each_particle (force_body s) (particles s)).

(** One iteration of the axis loop of [_handle_boundaries]. *)
Definition boundary_step (b : Config.BoundaryConfig) (particle : Particle)
    (i : axis) : Particle :=
  let min_bounds := Config.min_bounds b in
  let max_bounds := Config.max_bounds b in
  let restitution := Config.restitution b in
  if Rlt_dec (vget (position particle) i) (vget min_bounds i) then
    set_position_velocity particle
      (vset (position particle) i (vget min_bounds i))
      (vset (velocity particle) i (vget (velocity particle) i * - restitution))
  else if Rgt_dec (vget (position particle) i) (vget max_bounds i) then
    set_position_velocity particle
      (vset (position particle) i (vget max_bounds i))
      (vset (velocity particle) i (vget (velocity particle) i * - restitution))
  else particle.

(** [_handle_boundaries]. *)
Definition _handle_boundaries (s : Simulator) (particle : Particle) : Particle :=
  fold_left (boundary_step (boundary_config s)) axes particle.

Definition integrate_body (s : Simulator) (cur : list Particle) (i : nat)
    (particle : Particle) : Particle :=
  let acceleration := vdiv (force particle) (density particle) in
  let v1 := vadd (velocity particle) (vmul acceleration (dt s)) in
  let v2 := vmul v1 (damping s) in
  let x := vadd (position particle) (vmul v2 (dt s)) in
  _handle_boundaries s (set_position_velocity particle x v2).

(** [_integrate]. *)
Definition _integrate (s : Simulator) : Simulator :=
  set_particles s (for_each_particle (integrate_body s) (particles s)).

Definition external_force_body (s : Simulator) (pos : vec3) (radius : R)
    (f : vec3) (cur : list Particle) (i : nat) (particle : Particle) : Particle :=
  let r_vec := vsub (position particle) pos in
  let distance := norm r_vec in
  if Rlt_dec distance radius then
    let falloff := 1 - distance / radius in
    set_position_velocity particle (position particle)
      (vadd (velocity particle) (vmul (vmul f falloff) (dt s)))
  else particle.

(** [add_external_force]. *)
Definition add_external_force (s : Simulator) (pos : vec3) (radius : R)
    (f : vec3) : Simulator :=
  set_particles s
    (for_each_particle (external_force_body s pos radius f) (particles s)).

(** [update]; [None] is the default [dt=None]. *)
Definition update (s : Simulator) (dt_arg : option R) : Simulator :=
  let s1 := match dt_arg with Some d => set_dt s d | None => s end in
  _integrate (_compute_forces (_compute_density_pressure s1)).

(** [get_particle_positions] and [get_particle_velocities]. *)
Definition get_particle_positions (s : Simulator) : list vec3 :=
  map position (particles s).

Definition get_particle_velocities (s : Simulator) : list vec3 :=
  map velocity (particles s).


(** ** Sessions

    A caller constructs a simulator and then issues public calls. *)

Inductive call : Type :=
| DoUpdate (dt_arg : option R)
| DoAddExternalForce (pos : vec3) (radius : R) (f : vec3)
| DoReset.

Definition run_call (s : Simulator) (k : call) : result Simulator :=
  match k with
  | DoUpdate dt_arg => Ok (update s dt_arg)
  | DoAddExternalForce pos radius f => Ok (add_external_force s pos radius f)
  | DoReset => reset s
  end.

Fixpoint run (s : Simulator) (calls : list call) : result Simulator :=
  match calls with
  | [] => Ok s
  | k :: calls' => let! s' := run_call s k in run s' calls'
  end.

(** Construction followed by the calls, in order. *)
Definition session (cfg : option Config.FluidConfig) (calls : list call) : result Simulator :=
  let! s := SPHFluidSimulator_init cfg in run s calls.

(** ** helpers.py: class SpatialHashGrid *)

Module SpatialHashGrid.

(** A cell is a triple of integer grid coordinates. *)
Abbreviation cell := (Z * Z * Z)%type.

Record t : Type := {
  cell_size : R;
  grid : gmap cell (list Z)
}.

(** [__init__]. *)
Definition init (cell_size : R) : t := {| cell_size := cell_size; grid := ∅ |}.

(** [clear]. *)
Definition clear (g : t) : t := {| cell_size := cell_size g; grid := ∅ |}.

(** [_hash_position]. *)
Definition _hash_position (g : t) (position : vec3) : result cell :=
  let! cx := int_np_div (vx position) (cell_size g) in
  let! cy := int_np_div (vy position) (cell_size g) in
  let! cz := int_np_div (vz position) (cell_size g) in
  Ok (cx, cy, cz).

(** [insert]. *)
Definition insert (g : t) (particle_id : Z) (position : vec3) : result t :=
  let! c := _hash_position g position in
  let grid1 :=
    match grid g !! c with
    | None => <[c := []]> (grid g)
    | Some _ => grid g
    end in
  Ok {| cell_size := cell_size g;
        grid := alter (fun bucket => bucket ++ [particle_id]) c grid1 |}.

(** The body of the innermost loop of [query_neighbors]. *)
Definition visit (g : t) (center_cell : cell) (dx dy dz : Z)
    (neighbors : list Z) : list Z :=
  let c := (center_cell.1.1 + dx, center_cell.1.2 + dy, center_cell.2 + dz)%Z in
  match grid g !! c with
  | Some bucket => neighbors ++ bucket
  | None => neighbors
  end.

(** [query_neighbors]. *)
Definition query_neighbors (g : t) (position : vec3) (radius : R) : result (list Z) :=
  let! q := py_div radius (cell_size g) in
  let cell_radius := py_int (np_ceil q) in
  let! center_cell := _hash_position g position in
  let offsets := range2 (- cell_radius) (cell_radius + 1) in
  Ok (fold_left
        (fun acc dx =>
           fold_left
             (fun acc dy =>
                fold_left (fun acc dz => visit g center_cell dx dy dz acc)
                          offsets acc)
             offsets acc)
        offsets []).

(** Inserting a batch of particles, one [insert] call each, in order. *)
Fixpoint insert_all (g : t) (items : list (Z * vec3)) : result t :=
  match items with
  | [] => Ok g
  | (particle_id, position) :: rest =>
      let! g' := insert g particle_id position in
      insert_all g' rest
  end.

End SpatialHashGrid.

(** ** helpers.py: scalar and vector helpers *)

(** The builtin [max(a, b)] on two floats: [b] when it is larger, else
    [a]. *)
Definition py_max (a b : R) : R := if Rlt_dec a b then b else a.

(** The builtin [min(a, b)]: [b] when it is smaller, else [a]. *)
Definition py_min (a b : R) : R := if Rlt_dec b a then b else a.

(** [clamp]. *)
Definition clamp (value min_val max_val : R) : R :=
  py_max min_val (py_min max_val value).


(** [smooth_step]; the division is one of Python floats. *)
Definition smooth_step (edge0 edge1 x : R) : result R :=
  let! q := py_div (x - edge0) (edge1 - edge0) in
  let t := clamp q 0 1 in
  Ok (t * t * (3 - 2 * t)).



(** The builtin [sum] of a list of floats, added left to right from 0. *)
Definition py_sum (l : list R) : R := fold_left Rplus l 0.

(** ** helpers.py: class FPSCounter

    [time.time()] is an input: every method that reads the clock takes
    the reading as the argument [now]. *)

Module FPSCounter.

Record t : Type := {
  window_size : Z;
  frame_times : list R;
  last_time : R
}.

(** [__init__]. *)
Definition init (window_size : Z) (now : R) : t := {|
  window_size := window_size;
  frame_times := [];
  last_time := now
|}.

(** [update]: the new state and the returned FPS.  Both divisions are
    guarded by the tests before them. *)
Definition update (c : t) (now : R) : t * R :=
  let current_time := now in
  let delta_time := current_time - last_time c in
  let appended := frame_times c ++ [delta_time] in
  let kept :=
    if (Z.of_nat (length appended) >? window_size c)%Z then tail appended
    else appended in
  let c' := {| window_size := window_size c;
               frame_times := kept;
               last_time := current_time |} in
  if (0 <? length kept)%nat then
    let avg_frame_time := py_sum kept / INR (length kept) in
    (c', if Rgt_dec avg_frame_time 0 then 1 / avg_frame_time else 0)
  else (c', 0).

(** [get_frame_time]: [frame_times[-1]], or [0.0] on an empty list. *)
Definition get_frame_time (c : t) : R :=
  match last (frame_times c) with
  | Some x => x
  | None => 0
  end.

(** The counter after a run of [update] calls at the given clock
    readings. *)
Definition updates (c : t) (clock : list R) : t :=
  fold_left (fun c now => fst (update c now)) clock c.

End FPSCounter.

(** ** helpers.py: class PerformanceMonitor *)

Module PerformanceMonitor.

Record t : Type := {
  timers : gmap string R;
  counters : gmap string Z
}.

(** [__init__]. *)
Definition init : t := {| timers := ∅; counters := ∅ |}.

(** [start_timer]. *)
Definition start_timer (m : t) (name : string) (now : R) : t :=
  {| timers := <[name := now]> (timers m); counters := counters m |}.

(** [end_timer]: the elapsed time; the monitor is not changed. *)
Definition end_timer (m : t) (name : string) (now : R) : R :=
  match timers m !! name with
  | Some started => now - started
  | None => 0
  end.

(** [increment_counter]. *)
Definition increment_counter (m : t) (name : string) (amount : Z) : t :=
  let counters1 :=
    match counters m !! name with
    | None => <[name := 0%Z]> (counters m)
    | Some _ => counters m
    end in
  {| timers := timers m;
     counters := alter (fun v => (v + amount)%Z) name counters1 |}.

(** [get_stats]: copies of the two dictionaries. *)
Definition get_stats (m : t) : gmap string R * gmap string Z :=
  (timers m, counters m).

(** [reset]. *)
Definition reset (m : t) : t := {| timers := ∅; counters := ∅ |}.

End PerformanceMonitor.

(** ** gesture_recognition.py: class GestureRecognizer

    The MediaPipe detector is outside the model: [process_frame] takes
    what [self.hands.process] returned for the frame. *)

Module Gesture.

(** The four values [gesture_type] takes after a detection. *)
Inductive gesture : Type := two_fingers | point | open_hand | fist.

(** A MediaPipe landmark. *)
Record Landmark : Type := { lx : R; ly : R; lz : R }.

(** [hand_landmarks.landmark]: the list of landmarks of one hand. *)
Abbreviation hand := (list Landmark).

(** The attributes of a [GestureRecognizer] the modelled methods use. *)
Record t : Type := {
  interaction_radius : R;
  force_multiplier : R;
  hand_positions : list vec3;
  hand_velocities : list vec3;
  previous_positions : list vec3;
  gesture_type : option gesture
}.

(** [__init__] with the default [GESTURE_CONFIG]. *)
Definition init : t := {|
  interaction_radius := 0.15;
  force_multiplier := 50;
  hand_positions := [];
  hand_velocities := [];
  previous_positions := [];
  gesture_type := None
|}.

(** [a < b] on two floats, as a Python [bool]. *)
Definition lt_bool (a b : R) : bool := if Rlt_dec a b then true else false.

(** [_detect_gesture]: the new [gesture_type]; [None] stands for the
    [IndexError] of a landmark list that is too short. *)
Definition _detect_gesture (hand_landmarks : hand) : option gesture :=
  thumb_tip ← hand_landmarks !! 4%nat;
  index_tip ← hand_landmarks !! 8%nat;
  middle_tip ← hand_landmarks !! 12%nat;
  ring_tip ← hand_landmarks !! 16%nat;
  pinky_tip ← hand_landmarks !! 20%nat;
  index_base ← hand_landmarks !! 5%nat;
  middle_base ← hand_landmarks !! 9%nat;
  ring_base ← hand_landmarks !! 13%nat;
  pinky_base ← hand_landmarks !! 17%nat;
  let index_extended := lt_bool (ly index_tip) (ly index_base) in
  let middle_extended := lt_bool (ly middle_tip) (ly middle_base) in
  let ring_extended := lt_bool (ly ring_tip) (ly ring_base) in
  let pinky_extended := lt_bool (ly pinky_tip) (ly pinky_base) in
  Some (if index_extended && middle_extended && negb ring_extended
           && negb pinky_extended then two_fingers
        else if index_extended && negb middle_extended then point
        else if index_extended && middle_extended && ring_extended
                && pinky_extended then open_hand
        else fist).

(** The key points whose average approximates the palm centre. *)
Definition key_points : list nat := [0; 5; 9; 13; 17]%nat.

(** The inner loop of [process_frame] over [key_points], from the
    running sums [acc]. *)
Fixpoint palm_sum (hand_landmarks : hand) (idxs : list nat) (acc : R * R * R)
    : option (R * R * R) :=
  match idxs with
  | [] => Some acc
  | idx :: idxs' =>
      landmark ← hand_landmarks !! idx;
      palm_sum hand_landmarks idxs'
               (acc.1.1 + lx landmark, acc.1.2 + ly landmark, acc.2 + lz landmark)
  end.

(** The world position [process_frame] computes for one hand. *)
Definition hand_position (hand_landmarks : hand) : option vec3 :=
  sums ← palm_sum hand_landmarks key_points (0, 0, 0);
  let palm_x := sums.1.1 / INR (length key_points) in
  let palm_y := sums.1.2 / INR (length key_points) in
  let palm_z := sums.2 / INR (length key_points) in
  let world_x := (palm_x - 0.5) * 2 in
  let world_y := - (palm_y - 0.5) * 2 in
  let world_z := palm_z * 2 in
  Some (Vec3 world_x world_y world_z).

(** The loop of [process_frame] over the detected hands; [acc] is
    [(self.hand_positions, self.hand_velocities)] and [hand_idx] the
    index of the first hand of [hands]. *)
Fixpoint hands_loop (previous : list vec3) (hands : list hand) (hand_idx : nat)
    (acc : list vec3 * list vec3) : option (list vec3 * list vec3) :=
  match hands with
  | [] => Some acc
  | hand_landmarks :: hands' =>
      position ← hand_position hand_landmarks;
      let velocity :=
        match previous !! hand_idx with
        | Some prev => vsub position prev
        | None => vzero
        end in
      hands_loop previous hands' (S hand_idx)
                 (acc.1 ++ [position], acc.2 ++ [velocity])
  end.

(** [process_frame]; [multi_hand_landmarks] is
    [results.multi_hand_landmarks], which is [None] or a list. *)
Definition process_frame (g : t) (multi_hand_landmarks : option (list hand))
    : option t :=
  match multi_hand_landmarks with
  | Some (first :: rest) =>
      lists ← hands_loop (previous_positions g) (first :: rest) 0 ([], []);
      gesture ← _detect_gesture first;
      Some {| interaction_radius := interaction_radius g;
              force_multiplier := force_multiplier g;
              hand_positions := lists.1;
              hand_velocities := lists.2;
              previous_positions := lists.1;
              gesture_type := Some gesture |}
  | _ =>
      Some {| interaction_radius := interaction_radius g;
              force_multiplier := force_multiplier g;
              hand_positions := [];
              hand_velocities := [];
              previous_positions := previous_positions g;
              gesture_type := gesture_type g |}
  end.

(** The [force_magnitude] of [get_interaction_forces]. *)
Definition force_magnitude (g : t) : R :=
  match gesture_type g with
  | Some two_fingers => force_multiplier g * 2
  | Some open_hand => force_multiplier g * -0.5
  | Some fist => force_multiplier g * 1.5
  | _ => force_multiplier g
  end.

(** One iteration of the loop of [get_interaction_forces]. *)
Definition interaction_force (g : t) (i : nat) (position : vec3)
    : vec3 * vec3 * R :=
  let velocity :=
    match hand_velocities g !! i with
    | Some v => v
    | None => vzero
    end in
  let force_direction :=
    if Rgt_dec (norm velocity) 0.01 then vdiv velocity (norm velocity)
    else Vec3 0 0 1 in
  let force_vector := vmul force_direction (force_magnitude g) in
  (position, force_vector, interaction_radius g).

(** [get_interaction_forces]: [(position, force_vector, radius)] per
    hand. *)
Definition get_interaction_forces (g : t) : list (vec3 * vec3 * R) :=
  imap (interaction_force g) (hand_positions g).

End Gesture.

(** ** main.py: the force part of [ARFluidVisionApp.process_interactions] *)

(** The loop that hands every interaction force to the simulator. *)
Definition apply_interaction_forces (s : Simulator)
    (interaction_forces : list (vec3 * vec3 * R)) : Simulator :=
  fold_left
    (fun s pfr => add_external_force s pfr.1.1 pfr.2 pfr.1.2)
    interaction_forces s.

(** Gesture processing of one frame followed by the force loop. *)
Definition process_interactions (s : Simulator) (g : Gesture.t)
    (multi_hand_landmarks : option (list Gesture.hand))
    : option (Simulator * Gesture.t) :=
  g' ← Gesture.process_frame g multi_hand_landmarks;
  Some (apply_interaction_forces s (Gesture.get_interaction_forces g'), g').

(** * Vocabulary of the properties

    Predicates, the formulas the specification states, and the concrete
    configurations and states the properties are checked on. *)

(** The particle carries the mass of the module-level [FLUID_CONFIG]. *)
Definition global_mass (p : Particle) : Prop :=
  mass p = Config.particle_mass FLUID_CONFIG.

(** [count] is the length of the list, and every particle made so far
    carries the module-level mass. *)
Definition grid_inv (st : grid_state) : Prop :=
  snd st = Z.of_nat (length (fst st)) /\ Forall global_mass (fst st).

(** What [_initialize_particles] leaves alone. *)
Definition same_attributes (s s' : Simulator) : Prop :=
  set_particles s' (particles s) = s.

(** The simulator built from configuration [c], holding the particles
    [ps] and the time step [d]: every state the public operations can
    reach has this form, since they change only the particle list and
    [dt]. *)
Definition make_simulator (c : Config.FluidConfig) (ps : list Particle) (d : R) : Simulator := {|
  config := c;
  boundary_config := BOUNDARY_CONFIG;
  particles := ps;
  num_particles := Config.num_particles c;
  rest_density := Config.rest_density c;
  gas_constant := Config.gas_constant c;
  viscosity := Config.viscosity c;
  gravity := Config.gravity c;
  smoothing_radius := Config.smoothing_radius c;
  h := Config.smoothing_radius c;
  h2 := Config.smoothing_radius c * Config.smoothing_radius c;
  dt := d;
  damping := Config.damping c;
  poly6_constant := 315 / (64 * PI * Config.smoothing_radius c ^ 9);
  spiky_constant := -45 / (PI * Config.smoothing_radius c ^ 6);
  viscosity_constant := 45 / (PI * Config.smoothing_radius c ^ 6)
|}.

(** [n] is the cube of an integer. *)
Definition is_perfect_cube (n : Z) : Prop := exists k : Z, (k * k * k = n)%Z.



(** A configuration whose particle mass differs from the module-level
    one. *)
Definition heavy_config : Config.FluidConfig := {|
  Config.num_particles := 27;
  Config.particle_mass := 7;
  Config.rest_density := 1000;
  Config.gas_constant := 2000;
  Config.viscosity := 0.5;
  Config.gravity := Vec3 0 (-9.8) 0;
  Config.smoothing_radius := 0.05;
  Config.time_step := 0.016;
  Config.damping := 0.95
|}.

(** The density loop reads only the positions of the other particles. *)
Definition same_position (p q : Particle) : Prop := position p = position q.

(** The force loop reads position, velocity, density and pressure of the
    other particles, and writes only [force]. *)
Definition same_kinematics (p q : Particle) : Prop :=
  position p = position q /\ velocity p = velocity q /\
  density p = density q /\ pressure p = pressure q.

(** The integration and external-force loops read no other particle. *)
Definition any_particle (p q : Particle) : Prop := True.

(** Every position component of [p] lies between the bounds of [b]. *)
Definition within_bounds (b : Config.BoundaryConfig) (p : Particle) : Prop :=
  forall i : axis,
    vget (Config.min_bounds b) i <= vget (position p) i <= vget (Config.max_bounds b) i.

(** A particle outside the domain, moving further out. *)
Definition escaping_particle : Particle := {|
  position := Vec3 5 0 (-3);
  velocity := Vec3 100 0 (-100);
  force := vzero;
  density := 0;
  pressure := 0;
  mass := 0.02
|}.

(** A call that passes no [dt]. *)
Definition no_dt_argument (k : call) : Prop :=
  match k with
  | DoUpdate (Some _) => False
  | _ => True
  end.

(** The velocity [add_external_force] leaves in a particle when the
    stored time step is [d]. *)
Definition pushed (pos : vec3) (radius : R) (f : vec3) (d : R) (p : Particle) : Particle :=
  if Rlt_dec (norm (vsub (position p) pos)) radius then
    set_position_velocity p (position p)
      (vadd (velocity p)
            (vmul (vmul f (1 - norm (vsub (position p) pos) / radius)) d))
  else p.

(** [FLUID_CONFIG] with a single particle. *)
Definition single_config : Config.FluidConfig := {|
  Config.num_particles := 1;
  Config.particle_mass := 0.02;
  Config.rest_density := 1000;
  Config.gas_constant := 2000;
  Config.viscosity := 0.5;
  Config.gravity := Vec3 0 (-9.8) 0;
  Config.smoothing_radius := 0.05;
  Config.time_step := 0.016;
  Config.damping := 0.95
|}.



(** [FLUID_CONFIG] with two particles. *)
Definition pair_config : Config.FluidConfig := {|
  Config.num_particles := 2;
  Config.particle_mass := 0.02;
  Config.rest_density := 1000;
  Config.gas_constant := 2000;
  Config.viscosity := 0.5;
  Config.gravity := Vec3 0 (-9.8) 0;
  Config.smoothing_radius := 0.05;
  Config.time_step := 0.016;
  Config.damping := 0.95
|}.

(** The two particles its constructor creates, at grid slots (0, 0, 0)
    and (0, 0, 1), and the simulator holding them. *)
Definition pair_first : Particle := Particle_init (Vec3 (-0.04) 0.46 (-0.04)).

Definition pair_second : Particle := Particle_init (Vec3 (-0.04) 0.46 0).

Definition pair_state : Simulator :=
  make_simulator pair_config [pair_first; pair_second] 0.016.



(** [stored g c id]: the bucket of cell [c] holds [id]. *)
Definition stored (g : SpatialHashGrid.t) (c : SpatialHashGrid.cell) (id : Z) : Prop :=
  exists bucket, SpatialHashGrid.grid g !! c = Some bucket /\ In id bucket.

(** The cell [int(x / cell_size)] per axis. *)
Definition cell_of (cell_size : R) (position : vec3) : SpatialHashGrid.cell :=
  (py_int (vx position / cell_size),
   py_int (vy position / cell_size),
   py_int (vz position / cell_size)).

(** The slots of the cubic grid in the order the three loops of
    [_initialize_particles] visit them: [i] outermost, [k] innermost. *)
Definition grid_layout (particles_per_dim : Z) (spacing : R) : list vec3 :=
  range particles_per_dim ≫= λ i,
  range particles_per_dim ≫= λ j,
  grid_point particles_per_dim spacing i j <$> range particles_per_dim.

(** The particle list [_initialize_particles] builds for configuration
    [c]. *)
Definition initial_particles (c : Config.FluidConfig) : list Particle :=
  let particles_per_dim := py_int (np_ceil (pow_third (Config.num_particles c))) in
  Particle_init <$>
    take (Z.to_nat (Config.num_particles c))
         (grid_layout particles_per_dim (Config.smoothing_radius c * 0.8)).

(** The frame intervals of a clock: each reading minus the one before,
    the first minus [start]. *)
Fixpoint deltas (start : R) (clock : list R) : list R :=
  match clock with
  | [] => []
  | now :: clock' => (now - start) :: deltas now clock'
  end.

(** The last reading of a clock, or [start] when there is none. *)
Definition last_reading (start : R) (clock : list R) : R :=
  match last clock with
  | Some now => now
  | None => start
  end.

(** A clock that ticks [k] times at the constant interval [delta]. *)
Definition steady (start delta : R) (k : nat) : list R :=
  (λ i : nat, start + INR (S i) * delta) <$> seq 0 k.

(** A run of [increment_counter] calls, one per [(name, amount)]. *)
Definition increments (m : PerformanceMonitor.t) (calls : list (string * Z))
    : PerformanceMonitor.t :=
  fold_left (fun m na => PerformanceMonitor.increment_counter m na.1 na.2) calls m.

(** The sum of the amounts the calls give to counter [name]. *)
Fixpoint total_for (name : string) (calls : list (string * Z)) : Z :=
  match calls with
  | [] => 0
  | na :: calls' =>
      if decide (na.1 = name) then (na.2 + total_for name calls')%Z
      else total_for name calls'
  end.

(** Two cells at most [cell_radius] apart on each of the three axes. *)
Definition near_cells (cell_radius : Z) (c1 c2 : SpatialHashGrid.cell) : Prop :=
  (- cell_radius <= c1.1.1 - c2.1.1 <= cell_radius)%Z /\
  (- cell_radius <= c1.1.2 - c2.1.2 <= cell_radius)%Z /\
  (- cell_radius <= c1.2 - c2.2 <= cell_radius)%Z.

(** The velocity [process_frame] gives hand number [i] at [position]:
    the move since the previous frame, or zero for a hand that frame
    did not have. *)
Definition hand_velocity (previous : list vec3) (i : nat) (position : vec3) : vec3 :=
  match previous !! i with
  | Some prev => vsub position prev
  | None => vzero
  end.

(** The landmark list has the 21 points of MediaPipe's hand model. *)
Definition full_hand (hand_landmarks : Gesture.hand) : Prop :=
  (21 <= length hand_landmarks)%nat.

(** The landmark lies in the unit cube of normalised image coordinates. *)
Definition in_unit_cube (l : Gesture.Landmark) : Prop :=
  0 <= Gesture.lx l <= 1 /\ 0 <= Gesture.ly l <= 1 /\ 0 <= Gesture.lz l <= 1.

(** A hand of 21 copies of one landmark, and a frame that shows it. *)
Definition flat_hand (l : Gesture.Landmark) : Gesture.hand := replicate 21 l.

Definition centre_landmark : Gesture.Landmark :=
  {| Gesture.lx := 0.5; Gesture.ly := 0.5; Gesture.lz := 0 |}.

Definition centre_frame : option (list Gesture.hand) :=
  Some [flat_hand centre_landmark].

(** * Properties *)

(** Split on the real comparisons a kernel or a loop body branches on. *)
Ltac real_cases :=
  repeat match goal with
         | |- context [Rlt_dec ?a ?b] => destruct (Rlt_dec a b)
         | |- context [Rge_dec ?a ?b] => destruct (Rge_dec a b)
         | |- context [Rgt_dec ?a ?b] => destruct (Rgt_dec a b)
         end.

(** ** Rounding *)

Lemma Int_part_bounds (r : R) : IZR (Int_part r) <= r < IZR (Int_part r) + 1.
Proof. destruct (base_Int_part r); lra. Qed.

Lemma Int_part_IZR (z : Z) : Int_part (IZR z) = z.
Proof. symmetry; apply Int_part_spec; lra. Qed.

Lemma np_ceil_bounds (x : R) : x <= np_ceil x < x + 1.
Proof.
  unfold np_ceil; rewrite opp_IZR.
  destruct (Int_part_bounds (- x)); lra.
Qed.

Lemma py_int_IZR (z : Z) : py_int (IZR z) = z.
Proof.
  unfold py_int; destruct (Rle_dec 0 (IZR z)).
  - apply Int_part_IZR.
  - rewrite <- opp_IZR, Int_part_IZR; lia.
Qed.

Lemma py_int_np_ceil (x : R) : IZR (py_int (np_ceil x)) = np_ceil x.
Proof. unfold np_ceil at 1; now rewrite py_int_IZR. Qed.



(** ** The cube root of the particle count *)

Lemma pow_third_cube (n : Z) : (0 <= n)%Z -> pow_third n ^ 3 = IZR n.
Proof.
  intros Hn; unfold pow_third.
  destruct (Z.eq_dec n 0%Z) as [-> | Hne]; [lra |].
  assert (Hpos : 0 < IZR n) by (apply IZR_lt; lia).
  rewrite <- (Rpower_pow 3) by apply exp_pos.
  rewrite Rpower_mult.
  replace (1 / 3 * INR 3) with 1 by (simpl; lra).
  now apply Rpower_1.
Qed.

Lemma pow_third_nonneg (n : Z) : 0 <= pow_third n.
Proof.
  unfold pow_third; destruct (Z.eq_dec n 0%Z); [lra |].
  left; apply exp_pos.
Qed.

(** [particles_per_dim] is a non-negative integer whose cube covers the
    requested count. *)
Lemma particles_per_dim_spec (n : Z) :
  (0 <= n)%Z ->
  let ppd := py_int (np_ceil (pow_third n)) in
  (0 <= ppd)%Z /\ (n <= ppd * ppd * ppd)%Z.
Proof.
  intros Hn ppd.
  pose proof (pow_third_nonneg n) as H0.
  pose proof (pow_third_cube n Hn) as H3.
  pose proof (np_ceil_bounds (pow_third n)) as Hc.
  assert (Hp : IZR ppd = np_ceil (pow_third n)) by apply py_int_np_ceil.
  split.
  - apply le_IZR; lra.
  - apply le_IZR; rewrite !mult_IZR, Hp, <- H3.
    set (c := pow_third n) in *; set (k := np_ceil c) in *.
    assert (0 <= k) by lra.
    replace (c ^ 3) with (c * c * c) by ring.
    apply Rmult_le_compat; try nra.
Qed.

Lemma particles_per_dim_eq (n k : Z) :
  (1 <= k)%Z -> ((k - 1) * (k - 1) * (k - 1) < n <= k * k * k)%Z ->
  py_int (np_ceil (pow_third n)) = k.
Proof.
  intros Hk [Hlo Hhi].
  assert (Hn : (0 <= n)%Z) by nia.
  pose proof (pow_third_nonneg n) as H0.
  pose proof (pow_third_cube n Hn) as H3.
  pose proof (np_ceil_bounds (pow_third n)) as Hc.
  pose proof (py_int_np_ceil (pow_third n)) as Hp.
  apply IZR_lt in Hlo; apply IZR_le in Hhi; apply IZR_le in Hk.
  rewrite !mult_IZR, minus_IZR in Hlo; rewrite !mult_IZR in Hhi.
  set (c := pow_third n) in *; set (m := py_int (np_ceil c)) in *.
  rewrite <- Hp in Hc; clearbody c m; clear Hp.
  rewrite <- H3 in Hlo, Hhi.
  assert (Hc1 : IZR k - 1 < c).
  { destruct (Rlt_dec (IZR k - 1) c) as [|Hn']; [assumption | exfalso].
    apply Rnot_lt_le in Hn'.
    assert (c * c <= (IZR k - 1) * (IZR k - 1)) by nra.
    assert (c * c * c <= (IZR k - 1) * (IZR k - 1) * (IZR k - 1)).
    { apply Rmult_le_compat; nra. }
    nra. }
  assert (Hc2 : c <= IZR k).
  { destruct (Rle_dec c (IZR k)) as [|Hn']; [assumption | exfalso].
    apply Rnot_le_lt in Hn'.
    assert (IZR k * IZR k <= c * c) by nra.
    assert (IZR k * IZR k * IZR k <= c * c * c).
    { apply Rmult_le_compat; nra. }
    nra. }
  assert (m < k + 1)%Z by (apply lt_IZR; rewrite plus_IZR; lra).
  assert (k - 1 < m)%Z by (apply lt_IZR; rewrite minus_IZR; lra).
  lia.
Qed.

(** ** The grid loops of [_initialize_particles] *)

Section GridLoops.

Variable n : Z.
Variable ppd : Z.
Variable spacing : R.

Lemma loop_k_spec (ks : list Z) (i j : Z) (st : grid_state) :
  grid_inv st ->
  let st' := loop_k n ppd spacing ks i j st in
  grid_inv st' /\
  snd st' = Z.max (snd st) (Z.min n (snd st + Z.of_nat (length ks))).
Proof.
  revert st; induction ks as [| k ks IH]; intros st [Hc Hm]; simpl.
  - split; [now split | lia].
  - destruct (Z.geb_spec (snd st) n) as [Hge | Hlt].
    + split; [now split | lia].
    + edestruct (IH (fst st ++ [Particle_init (grid_point ppd spacing i j k)],
                     (snd st + 1)%Z)) as [Hinv Hcnt].
      { split; simpl.
        - rewrite length_app; simpl; lia.
        - apply Forall_app; split; [assumption |].
          constructor; [reflexivity | constructor]. }
      split; [exact Hinv |].
      rewrite Hcnt; simpl; lia.
Qed.

Lemma loop_j_spec (js : list Z) (i : Z) (st : grid_state) :
  (0 <= ppd)%Z ->
  grid_inv st ->
  let st' := loop_j n ppd spacing js i st in
  grid_inv st' /\
  snd st' = Z.max (snd st) (Z.min n (snd st + Z.of_nat (length js) * ppd)).
Proof.
  intros Hp; revert st; induction js as [| j js IH]; intros st Hinv; simpl.
  - split; [assumption | lia].
  - destruct (loop_k_spec (range ppd) i j st Hinv) as [Hinv1 Hc1].
    unfold range in Hc1 at 2; rewrite length_map, length_seq, Z2Nat.id in Hc1 by assumption.
    destruct (Z.geb_spec (snd (loop_k n ppd spacing (range ppd) i j st)) n).
    + split; [assumption | nia].
    + destruct (IH _ Hinv1) as [Hinv2 Hc2].
      split; [assumption |].
      rewrite Hc2; nia.
Qed.

Lemma loop_i_spec (il : list Z) (st : grid_state) :
  (0 <= ppd)%Z ->
  grid_inv st ->
  let st' := loop_i n ppd spacing il st in
  grid_inv st' /\
  snd st' = Z.max (snd st) (Z.min n (snd st + Z.of_nat (length il) * (ppd * ppd))).
Proof.
  intros Hp; revert st; induction il as [| i il IH]; intros st Hinv; simpl.
  - split; [assumption | lia].
  - destruct (loop_j_spec (range ppd) i st Hp Hinv) as [Hinv1 Hc1].
    unfold range in Hc1 at 2; rewrite length_map, length_seq, Z2Nat.id in Hc1 by assumption.
    destruct (Z.geb_spec (snd (loop_j n ppd spacing (range ppd) i st)) n).
    + split; [assumption | nia].
    + destruct (IH _ Hinv1) as [Hinv2 Hc2].
      split; [assumption |].
      rewrite Hc2; nia.
Qed.

End GridLoops.

Lemma same_attributes_set_particles (s : Simulator) (ps : list Particle) :
  same_attributes s (set_particles s ps).
Proof. destruct s; reflexivity. Qed.

(** [_initialize_particles] succeeds on a non-negative count, with
    exactly that many particles, all of the module-level mass. *)
Lemma initialize_particles_spec (s : Simulator) :
  (0 <= num_particles s)%Z ->
  exists s',
    _initialize_particles s = Ok s' /\
    same_attributes s s' /\
    Z.of_nat (length (particles s')) = num_particles s /\
    Forall global_mass (particles s').
Proof.
  intros Hn; unfold _initialize_particles.
  destruct (Z.ltb_spec (num_particles s) 0) as [| _]; [lia |].
  destruct (particles_per_dim_spec _ Hn) as [Hp Hcube].
  set (ppd := py_int (np_ceil (pow_third (num_particles s)))) in *.
  destruct (loop_i_spec (num_particles s) ppd (smoothing_radius s * 0.8)
              (range ppd) ([], 0%Z) Hp) as [[Hc Hm] Hcnt].
  { split; [reflexivity | constructor]. }
  unfold range in Hcnt at 2; rewrite length_map, length_seq, Z2Nat.id in Hcnt by assumption.
  simpl in Hcnt.
  eexists; split; [reflexivity |].
  split; [apply same_attributes_set_particles |].
  split; [| exact Hm].
  simpl; rewrite <- Hc, Hcnt; nia.
Qed.

Lemma initialize_particles_negative (s : Simulator) :
  (num_particles s < 0)%Z -> _initialize_particles s = Raise TypeError.
Proof.
  intros Hn; unfold _initialize_particles.
  destruct (Z.ltb_spec (num_particles s) 0); [reflexivity | lia].
Qed.

(** ** Construction *)

Lemma kernel_denominators (x : R) :
  x <> 0 -> 64 * PI * x ^ 9 <> 0 /\ PI * x ^ 6 <> 0.
Proof.
  intros Hx.
  pose proof PI_RGT_0 as Hpi.
  pose proof (pow_nonzero x 9 Hx); pose proof (pow_nonzero x 6 Hx).
  split.
  - apply Rmult_integral_contrapositive_currified; [lra | assumption].
  - apply Rmult_integral_contrapositive_currified; [lra | assumption].
Qed.

Lemma init_unfold (cfg : option Config.FluidConfig) :
  let c := config_or_default cfg in
  Config.smoothing_radius c <> 0 ->
  SPHFluidSimulator_init cfg =
  _initialize_particles (make_simulator c [] (Config.time_step c)).
Proof.
  intros c Hh; unfold SPHFluidSimulator_init, py_div; fold c.
  destruct (kernel_denominators _ Hh) as [H9 H6].
  destruct (Req_dec_T (64 * PI * Config.smoothing_radius c ^ 9) 0); [contradiction |].
  destruct (Req_dec_T (PI * Config.smoothing_radius c ^ 6) 0); [contradiction |].
  reflexivity.
Qed.

Lemma init_zero_radius (cfg : option Config.FluidConfig) :
  Config.smoothing_radius (config_or_default cfg) = 0 ->
  SPHFluidSimulator_init cfg = Raise ZeroDivisionError.
Proof.
  intros Hh; unfold SPHFluidSimulator_init, py_div; rewrite Hh.
  destruct (Req_dec_T (64 * PI * 0 ^ 9) 0) as [| Hne]; [reflexivity |].
  exfalso; apply Hne; ring.
Qed.

(** Construction succeeds on every configuration with a non-zero
    smoothing radius and a non-negative count. *)
Lemma init_spec (cfg : option Config.FluidConfig) :
  let c := config_or_default cfg in
  Config.smoothing_radius c <> 0 ->
  (0 <= Config.num_particles c)%Z ->
  exists ps,
    SPHFluidSimulator_init cfg = Ok (make_simulator c ps (Config.time_step c)) /\
    Z.of_nat (length ps) = Config.num_particles c /\
    Forall global_mass ps.
Proof.
  intros c Hh Hn.
  rewrite init_unfold by assumption; fold c.
  destruct (initialize_particles_spec (make_simulator c [] (Config.time_step c)) Hn)
    as (s' & Hs & Hattr & Hlen & Hm).
  exists (particles s'); split; [| now split].
  rewrite Hs; f_equal.
  unfold same_attributes in Hattr; destruct s'; simpl in *.
  now inversion Hattr.
Qed.

Lemma init_inv (cfg : option Config.FluidConfig) (s : Simulator) :
  SPHFluidSimulator_init cfg = Ok s ->
  let c := config_or_default cfg in
  Config.smoothing_radius c <> 0 /\ (0 <= Config.num_particles c)%Z /\
  exists ps,
    s = make_simulator c ps (Config.time_step c) /\
    Z.of_nat (length ps) = Config.num_particles c /\
    Forall global_mass ps.
Proof.
  intros Hs c.
  destruct (Req_dec_T (Config.smoothing_radius c) 0) as [Hz | Hnz].
  { rewrite init_zero_radius in Hs by assumption; discriminate. }
  destruct (Z.lt_ge_cases (Config.num_particles c) 0) as [Hneg | Hn].
  { rewrite init_unfold, initialize_particles_negative in Hs by assumption.
    discriminate. }
  split; [assumption | split; [assumption |]].
  destruct (init_spec cfg Hnz Hn) as (ps & Hok & Hlen & Hm).
  exists ps; split; [| now split].
  rewrite Hok in Hs; injection Hs as <-; reflexivity.
Qed.

Lemma not_cube_500 : ~ is_perfect_cube 500.
Proof.
  intros [k Hk].
  assert (k <= 7 \/ 8 <= k)%Z as [Hle | Hge] by lia.
  - assert (-8 <= k)%Z by nia.
    assert (k = -8 \/ k = -7 \/ k = -6 \/ k = -5 \/ k = -4 \/ k = -3 \/ k = -2 \/
            k = -1 \/ k = 0 \/ k = 1 \/ k = 2 \/ k = 3 \/ k = 4 \/ k = 5 \/
            k = 6 \/ k = 7)%Z as Hc by lia.
    repeat (destruct Hc as [-> | Hc]; [discriminate |]). subst; discriminate.
  - nia.
Qed.

(** ** Construction: validation, particle count, particle mass *)



(** C8, as stated, fails: the default count 500 is not a perfect cube,
    and construction creates 500 particles, not fewer. *)
Lemma default_count_not_truncated :
  exists s,
    SPHFluidSimulator_init None = Ok s /\
    ~ is_perfect_cube (num_particles s) /\
    ~ (Z.of_nat (length (particles s)) < num_particles s)%Z.
Proof.
  destruct (init_spec None) as (ps & Hok & Hlen & _).
  - simpl; lra.
  - simpl; lia.
  - eexists; split; [exact Hok |]; simpl in *.
    split; [exact not_cube_500 | lia].
Qed.

(** C8, amended: for every non-negative requested count, perfect cube
    or not, construction and [reset] create exactly that many particles;
    what is dropped are the unused slots of the cubic grid, and no error
    is raised. *)
Theorem construction_creates_requested_count (c : Config.FluidConfig) :
  Config.smoothing_radius c <> 0 ->
  (0 <= Config.num_particles c)%Z ->
  exists s,
    SPHFluidSimulator_init (Some c) = Ok s /\
    Z.of_nat (length (particles s)) = Config.num_particles c /\
    forall ps d,
      exists s',
        reset (make_simulator c ps d) = Ok s' /\
        Z.of_nat (length (particles s')) = Config.num_particles c.
Proof.
  intros Hh Hn.
  destruct (init_spec (Some c) Hh Hn) as (ps & Hok & Hlen & _).
  eexists; split; [exact Hok |]; split; [exact Hlen |].
  intros ps' d.
  destruct (initialize_particles_spec (make_simulator c ps' d) Hn)
    as (s' & Hs' & _ & Hlen' & _).
  exists s'; now split.
Qed.

(** The default configuration: 500 requested, 500 created. *)
Lemma construction_creates_requested_count_witness :
  Config.smoothing_radius FLUID_CONFIG <> 0 /\
  (0 <= Config.num_particles FLUID_CONFIG)%Z /\
  exists s,
    SPHFluidSimulator_init (Some FLUID_CONFIG) = Ok s /\
    Z.of_nat (length (particles s)) = 500%Z /\
    forall ps d,
      exists s',
        reset (make_simulator FLUID_CONFIG ps d) = Ok s' /\
        Z.of_nat (length (particles s')) = 500%Z.
Proof.
  assert (H1 : Config.smoothing_radius FLUID_CONFIG <> 0) by (simpl; lra).
  assert (H2 : (0 <= Config.num_particles FLUID_CONFIG)%Z) by (simpl; lia).
  split; [exact H1 | split; [exact H2 |]].
  exact (construction_creates_requested_count FLUID_CONFIG H1 H2).
Defined.

(** C10: whatever configuration the constructor is given, every particle
    it creates carries the mass of the module-level [FLUID_CONFIG]; and
    on every configuration with a non-zero radius and a non-negative
    count it does create the requested particles. *)
Theorem particle_mass_is_global (cfg : option Config.FluidConfig) :
  (forall s,
     SPHFluidSimulator_init cfg = Ok s ->
     Forall (fun p => mass p = Config.particle_mass FLUID_CONFIG) (particles s)) /\
  (Config.smoothing_radius (config_or_default cfg) <> 0 ->
   (0 <= Config.num_particles (config_or_default cfg))%Z ->
   exists s,
     SPHFluidSimulator_init cfg = Ok s /\
     Z.of_nat (length (particles s)) = Config.num_particles (config_or_default cfg)).
Proof.
  split.
  - intros s Hs.
    destruct (init_inv _ _ Hs) as (_ & _ & ps & -> & _ & Hm).
    exact Hm.
  - intros Hh Hn.
    destruct (init_spec cfg Hh Hn) as (ps & Hok & Hlen & _).
    eexists; split; [exact Hok | exact Hlen].
Qed.

(** On [heavy_config], which asks for mass 7, the 27 particles created
    have mass 0.02. *)
Lemma particle_mass_is_global_witness :
  exists s,
    SPHFluidSimulator_init (Some heavy_config) = Ok s /\
    Config.particle_mass (config s) = 7 /\
    Z.of_nat (length (particles s)) = 27%Z /\
    Forall (fun p => mass p = 0.02) (particles s).
Proof.
  destruct (particle_mass_is_global (Some heavy_config)) as [Hmass Hmade].
  destruct Hmade as (s & Hok & Hlen); [simpl; lra | simpl; lia |].
  exists s; split; [exact Hok |].
  destruct (init_inv _ _ Hok) as (_ & _ & ps & Hs & _).
  split; [rewrite Hs; reflexivity |].
  split; [exact Hlen | exact (Hmass s Hok)].
Defined.

(** ** The particle loops *)

Section ForEachParticle.

Variable body : list Particle -> nat -> Particle -> Particle.

(** [view p q]: [q] is [p] after some earlier iterations, as far as the
    body can tell. *)
Variable view : Particle -> Particle -> Prop.
Hypothesis view_refl : forall p, view p p.
Hypothesis body_view : forall cur i p, view p (body cur i p).
Hypothesis body_ext :
  forall cur cur' i p, Forall2 view cur cur' -> body cur' i p = body cur i p.

(** After the first [k] iterations the slots below [k] hold the body's
    result on the initial list, the others are untouched. *)
Lemma for_each_prefix (ps : list Particle) (k : nat) :
  (k <= length ps)%nat ->
  let cur := fold_left (loop_step body) (seq 0 k) ps in
  Forall2 view ps cur /\
  forall i p, ps !! i = Some p ->
    cur !! i = Some (if (i <? k)%nat then body ps i p else p).
Proof.
  induction k as [| k IH]; intros Hk; cbv zeta.
  - simpl; split.
    + apply Forall_Forall2_diag, Forall_forall. intros; apply view_refl.
    + intros i p Hi. now rewrite Hi.
  - destruct IH as [Hview Hlook]; [lia |].
    rewrite seq_S, fold_left_app; cbn [fold_left Nat.add].
    set (cur := fold_left (loop_step body) (seq 0 k) ps) in *.
    destruct (lookup_lt_is_Some_2 ps k) as [pk Hpk]; [lia |].
    pose proof (Hlook k pk Hpk) as Hcur.
    rewrite Nat.ltb_irrefl in Hcur.
    unfold loop_step; rewrite Hcur.
    split.
    + rewrite <- (list_insert_id ps k pk Hpk) at 1.
      apply Forall2_insert; [assumption |].
      apply body_view.
    + intros i p Hi.
      destruct (Nat.eq_dec i k) as [-> | Hne].
      * rewrite list_lookup_insert_eq.
        2:{ apply lookup_lt_Some in Hcur; exact Hcur. }
        replace (k <? S k)%nat with true by (symmetry; apply Nat.ltb_lt; lia).
        rewrite Hpk in Hi; injection Hi as <-.
        f_equal. now apply body_ext.
      * rewrite list_lookup_insert_ne by congruence.
        rewrite (Hlook i p Hi).
        destruct (Nat.ltb_spec i k), (Nat.ltb_spec i (S k)); try reflexivity; lia.
Qed.

Lemma for_each_particle_lookup (ps : list Particle) (i : nat) (p : Particle) :
  ps !! i = Some p -> for_each_particle body ps !! i = Some (body ps i p).
Proof.
  intros Hi.
  destruct (for_each_prefix ps (length ps) (Nat.le_refl _)) as [_ Hlook].
  unfold for_each_particle.
  rewrite (Hlook i p Hi).
  apply lookup_lt_Some in Hi.
  now replace (i <? length ps)%nat with true by (symmetry; apply Nat.ltb_lt; lia).
Qed.

Lemma for_each_particle_length (ps : list Particle) :
  length (for_each_particle body ps) = length ps.
Proof.
  destruct (for_each_prefix ps (length ps) (Nat.le_refl _)) as [Hview _].
  symmetry; exact (Forall2_length _ _ _ Hview).
Qed.

(** The loop computes, slot by slot, the body on the initial list. *)
Lemma for_each_particle_imap (ps : list Particle) :
  for_each_particle body ps = imap (body ps) ps.
Proof.
  apply list_eq; intros i.
  rewrite list_lookup_imap.
  destruct (ps !! i) as [p |] eqn:Hi; simpl.
  - now apply for_each_particle_lookup.
  - apply lookup_ge_None; rewrite for_each_particle_length.
    now apply lookup_ge_None.
Qed.

End ForEachParticle.

(** ** Each stage, slot by slot *)

Lemma density_fold_ext (s : Simulator) (p : Particle) (cur cur' : list Particle) :
  Forall2 same_position cur cur' ->
  forall acc,
    fold_left (density_step s p) cur' acc = fold_left (density_step s p) cur acc.
Proof.
  induction 1 as [| x y l l' Hxy _ IH]; intros acc; simpl; [reflexivity |].
  rewrite IH; f_equal.
  unfold density_step; now rewrite Hxy.
Qed.

Lemma compute_density_pressure_particles (s : Simulator) :
  particles (_compute_density_pressure s) =
  imap (density_body s (particles s)) (particles s).
Proof.
  unfold _compute_density_pressure; simpl.
  apply for_each_particle_imap with (view := same_position).
  - reflexivity.
  - reflexivity.
  - intros cur cur' i p Hv; unfold density_body.
    now rewrite (density_fold_ext s p cur cur' Hv).
Qed.

Lemma force_fold_ext (s : Simulator) (i : nat) (p : Particle)
    (cur cur' : list Particle) :
  Forall2 same_kinematics cur cur' ->
  forall start acc,
    fold_left (force_step s i p) (combine (seq start (length cur')) cur') acc =
    fold_left (force_step s i p) (combine (seq start (length cur)) cur) acc.
Proof.
  induction 1 as [| x y l l' Hxy _ IH]; intros start acc; simpl; [reflexivity |].
  rewrite IH; f_equal.
  destruct Hxy as (Hp & Hv & Hd & Hpr).
  unfold force_step; simpl; now rewrite Hp, Hv, Hd, Hpr.
Qed.

Lemma compute_forces_particles (s : Simulator) :
  particles (_compute_forces s) = imap (force_body s (particles s)) (particles s).
Proof.
  unfold _compute_forces; simpl.
  apply for_each_particle_imap with (view := same_kinematics).
  - now repeat split.
  - now repeat split.
  - intros cur cur' i p Hv; unfold force_body, force_loop, enumerate.
    now rewrite (force_fold_ext s i p cur cur' Hv).
Qed.

Lemma integrate_particles (s : Simulator) :
  particles (_integrate s) = imap (integrate_body s (particles s)) (particles s).
Proof.
  unfold _integrate; simpl.
  now apply for_each_particle_imap with (view := any_particle).
Qed.

Lemma add_external_force_particles (s : Simulator) (pos : vec3) (radius : R) (f : vec3) :
  particles (add_external_force s pos radius f) =
  imap (external_force_body s pos radius f (particles s)) (particles s).
Proof.
  unfold add_external_force; simpl.
  now apply for_each_particle_imap with (view := any_particle).
Qed.

(** A property of every slot of an [imap] follows from the property of
    the function at every slot. *)
Lemma Forall_imap (f : nat -> Particle -> Particle) (P : Particle -> Prop)
    (ps : list Particle) :
  (forall i p, ps !! i = Some p -> P (f i p)) -> Forall P (imap f ps).
Proof.
  intros Hf; apply Forall_lookup; intros i q Hq.
  rewrite list_lookup_imap in Hq.
  destruct (ps !! i) as [p |] eqn:Hp; simpl in Hq; [| discriminate].
  injection Hq as <-; eauto.
Qed.

Lemma map_imap_preserved {A : Type} (g : Particle -> A)
    (f : nat -> Particle -> Particle) (ps : list Particle) :
  (forall i p, g (f i p) = g p) -> map g (imap f ps) = map g ps.
Proof.
  intros Hg; revert f Hg; induction ps as [| p ps IH]; intros f Hg; simpl.
  - reflexivity.
  - rewrite Hg; f_equal. apply IH; intros; apply Hg.
Qed.

Lemma boundary_step_frame (b : Config.BoundaryConfig) (q : Particle) (i : axis) :
  force (boundary_step b q i) = force q /\
  density (boundary_step b q i) = density q /\
  pressure (boundary_step b q i) = pressure q /\
  mass (boundary_step b q i) = mass q.
Proof.
  unfold boundary_step.
  destruct (Rlt_dec _ _); [now repeat split |].
  destruct (Rgt_dec _ _); now repeat split.
Qed.

Lemma handle_boundaries_frame (s : Simulator) (p : Particle) :
  force (_handle_boundaries s p) = force p /\
  density (_handle_boundaries s p) = density p /\
  pressure (_handle_boundaries s p) = pressure p /\
  mass (_handle_boundaries s p) = mass p.
Proof.
  unfold _handle_boundaries.
  generalize axes; intros l; revert p.
  induction l as [| i l IH]; intros p; simpl; [now repeat split |].
  destruct (IH (boundary_step (boundary_config s) p i)) as (-> & -> & -> & ->).
  apply boundary_step_frame.
Qed.

(** ** Sessions: the states a caller can reach *)


Lemma set_dt_make (c : Config.FluidConfig) (ps : list Particle) (d d' : R) :
  set_dt (make_simulator c ps d) d' = make_simulator c ps d'.
Proof. reflexivity. Qed.

Lemma stage_mass (body : nat -> Particle -> Particle) (ps : list Particle) :
  (forall i p, mass (body i p) = mass p) ->
  Forall global_mass ps -> Forall global_mass (imap body ps).
Proof.
  intros Hb Hps; apply Forall_imap; intros i p Hp.
  unfold global_mass; rewrite Hb.
  exact (proj1 (Forall_lookup _ _) Hps i p Hp).
Qed.

Lemma compute_density_pressure_make (c : Config.FluidConfig) (ps : list Particle) (d : R) :
  Forall global_mass ps ->
  exists ps',
    _compute_density_pressure (make_simulator c ps d) = make_simulator c ps' d /\
    Forall global_mass ps' /\ map position ps' = map position ps /\
    map velocity ps' = map velocity ps.
Proof.
  intros Hm.
  exists (particles (_compute_density_pressure (make_simulator c ps d))).
  split; [reflexivity |].
  rewrite compute_density_pressure_particles; simpl.
  split; [now apply stage_mass | split; now apply map_imap_preserved].
Qed.

Lemma compute_forces_make (c : Config.FluidConfig) (ps : list Particle) (d : R) :
  Forall global_mass ps ->
  exists ps',
    _compute_forces (make_simulator c ps d) = make_simulator c ps' d /\
    Forall global_mass ps' /\ map density ps' = map density ps.
Proof.
  intros Hm.
  exists (particles (_compute_forces (make_simulator c ps d))).
  split; [reflexivity |].
  rewrite compute_forces_particles; simpl.
  split; [now apply stage_mass | now apply map_imap_preserved].
Qed.

Lemma integrate_make (c : Config.FluidConfig) (ps : list Particle) (d : R) :
  Forall global_mass ps ->
  exists ps',
    _integrate (make_simulator c ps d) = make_simulator c ps' d /\
    Forall global_mass ps' /\ map density ps' = map density ps.
Proof.
  intros Hm.
  exists (particles (_integrate (make_simulator c ps d))).
  split; [reflexivity |].
  rewrite integrate_particles; simpl.
  split; [apply stage_mass | apply map_imap_preserved]; try assumption;
    intros i p; unfold integrate_body;
    match goal with
    | |- context [_handle_boundaries ?s ?q] =>
        destruct (handle_boundaries_frame s q) as (_ & Hd & _ & Hmass)
    end; [rewrite Hmass | rewrite Hd]; reflexivity.
Qed.

Lemma add_external_force_make (c : Config.FluidConfig) (ps : list Particle) (d : R)
    (pos : vec3) (radius : R) (f : vec3) :
  Forall global_mass ps ->
  exists ps',
    add_external_force (make_simulator c ps d) pos radius f = make_simulator c ps' d /\
    Forall global_mass ps'.
Proof.
  intros Hm.
  exists (particles (add_external_force (make_simulator c ps d) pos radius f)).
  split; [reflexivity |].
  rewrite add_external_force_particles; simpl.
  apply stage_mass; [| assumption].
  intros i p; unfold external_force_body.
  now destruct (Rlt_dec _ _).
Qed.

Lemma update_make (c : Config.FluidConfig) (ps : list Particle) (d : R)
    (dt_arg : option R) :
  Forall global_mass ps ->
  exists ps',
    update (make_simulator c ps d) dt_arg =
    make_simulator c ps' (match dt_arg with Some d' => d' | None => d end) /\
    Forall global_mass ps'.
Proof.
  intros Hm; unfold update.
  set (d1 := match dt_arg with Some d' => d' | None => d end).
  replace (match dt_arg with
           | Some d0 => set_dt (make_simulator c ps d) d0
           | None => make_simulator c ps d
           end) with (make_simulator c ps d1) by (destruct dt_arg; reflexivity).
  destruct (compute_density_pressure_make c ps d1 Hm) as (ps1 & -> & Hm1 & _).
  destruct (compute_forces_make c ps1 d1 Hm1) as (ps2 & -> & Hm2 & _).
  destruct (integrate_make c ps2 d1 Hm2) as (ps3 & -> & Hm3 & _).
  now exists ps3.
Qed.

Lemma reset_make (c : Config.FluidConfig) (ps : list Particle) (d : R) :
  (0 <= Config.num_particles c)%Z ->
  exists ps',
    reset (make_simulator c ps d) = Ok (make_simulator c ps' d) /\
    Forall global_mass ps' /\ Z.of_nat (length ps') = Config.num_particles c.
Proof.
  intros Hn.
  destruct (initialize_particles_spec (make_simulator c ps d) Hn)
    as (s' & Hs & Hattr & Hlen & Hm).
  exists (particles s'); split; [| now split].
  unfold reset; rewrite Hs; f_equal.
  unfold same_attributes in Hattr; destruct s'; simpl in *.
  now inversion Hattr.
Qed.

(** Every state of a session is the simulator of its configuration with
    some particle list, all of the module-level mass, and some [dt]. *)
Lemma run_make (c : Config.FluidConfig) (calls : list call) :
  (0 <= Config.num_particles c)%Z ->
  forall ps d, Forall global_mass ps ->
  exists ps' d',
    run (make_simulator c ps d) calls = Ok (make_simulator c ps' d') /\
    Forall global_mass ps'.
Proof.
  intros Hn; induction calls as [| k calls IH]; intros ps d Hm; simpl.
  - now exists ps, d.
  - destruct k as [dt_arg | pos radius f |]; simpl.
    + destruct (update_make c ps d dt_arg Hm) as (ps1 & -> & Hm1). now apply IH.
    + destruct (add_external_force_make c ps d pos radius f Hm) as (ps1 & -> & Hm1).
      now apply IH.
    + destruct (reset_make c ps d Hn) as (ps1 & -> & Hm1 & _). now apply IH.
Qed.

Lemma session_inv (cfg : option Config.FluidConfig) (calls : list call) (s : Simulator) :
  session cfg calls = Ok s ->
  exists ps d,
    s = make_simulator (config_or_default cfg) ps d /\ Forall global_mass ps.
Proof.
  unfold session; intros Hs.
  destruct (SPHFluidSimulator_init cfg) as [s0 | e] eqn:Hinit; [| discriminate].
  destruct (init_inv _ _ Hinit) as (_ & Hn & ps0 & -> & _ & Hm0).
  simpl in Hs.
  destruct (run_make _ calls Hn ps0 (Config.time_step (config_or_default cfg)) Hm0)
    as (ps & d & Hrun & Hm).
  rewrite Hrun in Hs; injection Hs as <-.
  now exists ps, d.
Qed.

(** A session on a constructible configuration never raises. *)
Lemma session_total (cfg : option Config.FluidConfig) (calls : list call) :
  Config.smoothing_radius (config_or_default cfg) <> 0 ->
  (0 <= Config.num_particles (config_or_default cfg))%Z ->
  exists s, session cfg calls = Ok s.
Proof.
  intros Hh Hn; unfold session.
  destruct (init_spec cfg Hh Hn) as (ps0 & -> & _ & Hm0); simpl.
  destruct (run_make _ calls Hn ps0 (Config.time_step (config_or_default cfg)) Hm0)
    as (ps & d & -> & _).
  eexists; reflexivity.
Qed.

(** ** Density positivity *)

Section DensityStage.

Variable s : Simulator.
Hypothesis h2_pos : 0 < h2 s.
Hypothesis poly6_pos : 0 < poly6_constant s.

Lemma poly6_kernel_nonneg (r2 : R) : 0 <= _poly6_kernel s r2.
Proof.
  unfold _poly6_kernel; destruct (Rge_dec r2 (h2 s)) as [| Hlt]; [lra |].
  apply Rnot_ge_lt in Hlt.
  assert (0 < h2 s - r2) by lra.
  repeat apply Rmult_le_pos; lra.
Qed.

Lemma poly6_kernel_zero_pos : 0 < _poly6_kernel s 0.
Proof.
  unfold _poly6_kernel; destruct (Rge_dec 0 (h2 s)); [lra |].
  rewrite Rminus_0_r.
  repeat apply Rmult_lt_0_compat; assumption.
Qed.

Lemma density_step_mono (p q : Particle) (acc : R) :
  0 <= mass p -> acc <= density_step s p acc q.
Proof.
  intros Hm; unfold density_step.
  destruct (Rlt_dec _ _); [| lra].
  pose proof (poly6_kernel_nonneg
                (dot (vsub (position p) (position q)) (vsub (position p) (position q)))).
  nra.
Qed.

Lemma density_fold_mono (p : Particle) (cur : list Particle) (acc : R) :
  0 <= mass p -> acc <= fold_left (density_step s p) cur acc.
Proof.
  intros Hm; revert acc; induction cur as [| q cur IH]; intros acc; simpl; [lra |].
  eapply Rle_trans; [apply (density_step_mono p q acc Hm) | apply IH].
Qed.

Lemma dot_self_zero (x : vec3) : dot (vsub x x) (vsub x x) = 0.
Proof. unfold dot, vsub; simpl; ring. Qed.

(** The term of a neighbour at the particle's own position is the
    kernel at zero distance. *)
Lemma density_fold_self (p q : Particle) (cur : list Particle) (acc : R) :
  0 <= mass p -> In q cur -> position q = position p ->
  acc + mass p * _poly6_kernel s 0 <= fold_left (density_step s p) cur acc.
Proof.
  intros Hm Hin Hpos; revert acc; induction cur as [| x cur IH]; intros acc.
  - destruct Hin.
  - simpl; destruct Hin as [-> | Hin].
    + eapply Rle_trans; [| apply density_fold_mono; assumption].
      unfold density_step; rewrite Hpos, dot_self_zero.
      destruct (Rlt_dec 0 (h2 s)); lra.
    + eapply Rle_trans; [| apply IH; assumption].
      pose proof (density_step_mono p x acc Hm); lra.
Qed.

Lemma density_stage_lower_bound :
  Forall (fun p => 0 < mass p) (particles s) ->
  Forall (fun p => 0 < mass p * _poly6_kernel s 0 <= density p)
         (particles (_compute_density_pressure s)).
Proof.
  intros Hmass.
  rewrite compute_density_pressure_particles.
  apply Forall_imap; intros i p Hp.
  assert (Hm : 0 < mass p) by exact (proj1 (Forall_lookup _ _) Hmass i p Hp).
  unfold density_body; simpl; split.
  - apply Rmult_lt_0_compat; [assumption | apply poly6_kernel_zero_pos].
  - pose proof (density_fold_self p p (particles s) 0) as Hself.
    rewrite Rplus_0_l in Hself; apply Hself; [lra | | reflexivity].
    apply list_elem_of_In, list_elem_of_lookup; eauto.
Qed.

End DensityStage.

Lemma make_simulator_kernel_pos (c : Config.FluidConfig) (ps : list Particle) (d : R) :
  0 < Config.smoothing_radius c ->
  0 < h2 (make_simulator c ps d) /\ 0 < poly6_constant (make_simulator c ps d).
Proof.
  intros Hh; cbn [h2 poly6_constant make_simulator]; split; [nra |].
  pose proof PI_RGT_0.
  assert (0 < Config.smoothing_radius c ^ 9) by (apply pow_lt; assumption).
  apply Rdiv_lt_0_compat; [lra |].
  apply Rmult_lt_0_compat; [lra | assumption].
Qed.

Lemma global_mass_pos (ps : list Particle) :
  Forall global_mass ps -> Forall (fun p => 0 < mass p) ps.
Proof.
  intros Hm; eapply Forall_impl; [exact Hm |].
  intros p Hp; unfold global_mass in Hp; rewrite Hp; simpl; lra.
Qed.

(** C5: in every state a session can reach, with a positive smoothing
    radius, the density stage leaves every particle with a density that
    is at least its self-term [mass * kernel(0)], which is strictly
    positive; the density is still positive when [update] returns. *)
Theorem density_positive (cfg : option Config.FluidConfig) (calls : list call)
    (s : Simulator) (dt_arg : option R) :
  session cfg calls = Ok s ->
  0 < Config.smoothing_radius (config_or_default cfg) ->
  Forall (fun p => 0 < mass p * _poly6_kernel s 0 <= density p)
         (particles (_compute_density_pressure s)) /\
  Forall (fun p => 0 < density p) (particles (update s dt_arg)).
Proof.
  intros Hs Hh.
  destruct (session_inv _ _ _ Hs) as (ps & d & -> & Hm).
  set (c := config_or_default cfg) in *.
  split.
  - destruct (make_simulator_kernel_pos c ps d Hh) as [H2 H6].
    apply density_stage_lower_bound; [assumption | assumption |].
    now apply global_mass_pos.
  - unfold update.
    set (d1 := match dt_arg with Some d' => d' | None => d end).
    replace (match dt_arg with
             | Some d0 => set_dt (make_simulator c ps d) d0
             | None => make_simulator c ps d
             end) with (make_simulator c ps d1) by (destruct dt_arg; reflexivity).
    destruct (make_simulator_kernel_pos c ps d1 Hh) as [H2 H6].
    pose proof (density_stage_lower_bound (make_simulator c ps d1) H2 H6
                  (global_mass_pos ps Hm)) as Hdens.
    destruct (compute_density_pressure_make c ps d1 Hm) as (ps1 & E1 & Hm1 & _).
    rewrite E1 in *; simpl in Hdens.
    destruct (compute_forces_make c ps1 d1 Hm1) as (ps2 & -> & Hm2 & Hd2).
    destruct (integrate_make c ps2 d1 Hm2) as (ps3 & -> & Hm3 & Hd3).
    simpl.
    apply (proj1 (Forall_map density (fun x => 0 < x) ps3)).
    rewrite Hd3, Hd2.
    apply Forall_map.
    eapply Forall_impl; [exact Hdens |].
    simpl; intros p Hp; lra.
Qed.

(** The default simulator after a tick, an external force and a tick
    with an explicit time step. *)
Lemma density_positive_witness :
  exists s,
    session None [DoUpdate None;
                  DoAddExternalForce (Vec3 0 0 0) 0.3 (Vec3 10 0 0);
                  DoUpdate (Some 0.01)] = Ok s /\
    0 < Config.smoothing_radius (config_or_default None) /\
    Forall (fun p => 0 < mass p * _poly6_kernel s 0 <= density p)
           (particles (_compute_density_pressure s)) /\
    Forall (fun p => 0 < density p) (particles (update s None)).
Proof.
  destruct (session_total None
              [DoUpdate None;
               DoAddExternalForce (Vec3 0 0 0) 0.3 (Vec3 10 0 0);
               DoUpdate (Some 0.01)]) as [s Hs].
  - simpl; lra.
  - simpl; lia.
  - assert (Hh : 0 < Config.smoothing_radius (config_or_default None)) by (simpl; lra).
    exists s; split; [exact Hs | split; [exact Hh |]].
    exact (density_positive None _ s None Hs Hh).
Defined.

(** ** Boundary containment *)

Lemma handle_boundaries_within (s : Simulator) (p : Particle) :
  (forall i, vget (Config.min_bounds (boundary_config s)) i <=
             vget (Config.max_bounds (boundary_config s)) i) ->
  within_bounds (boundary_config s) (_handle_boundaries s p).
Proof.
  intros Hb.
  pose proof (Hb X) as HX; pose proof (Hb Y) as HY; pose proof (Hb Z3) as HZ.
  unfold within_bounds, _handle_boundaries, axes; simpl fold_left.
  destruct (boundary_config s) as [[x0 y0 z0] [x1 y1 z1] e].
  destruct p as [[x y z] v f dn pr m]; simpl in *.
  unfold boundary_step; simpl.
  destruct (Rlt_dec x x0); [| destruct (Rgt_dec x x1)]; simpl;
    (destruct (Rlt_dec y y0); [| destruct (Rgt_dec y y1)]); simpl;
    (destruct (Rlt_dec z z0); [| destruct (Rgt_dec z z1)]); simpl;
    intros [ | | ]; simpl; lra.
Qed.

(** C4: when [update] returns, every position component of every
    particle lies inside the configured domain, whatever the state the
    tick started from; the bounds only have to be ordered, as those of
    [BOUNDARY_CONFIG] are. *)
Theorem boundary_containment (s : Simulator) (dt_arg : option R) :
  (forall i, vget (Config.min_bounds (boundary_config s)) i <=
             vget (Config.max_bounds (boundary_config s)) i) ->
  Forall (within_bounds (boundary_config s)) (particles (update s dt_arg)).
Proof.
  intros Hb; unfold update.
  rewrite integrate_particles.
  apply Forall_imap; intros i p _.
  unfold integrate_body.
  match goal with
  | |- within_bounds _ (_handle_boundaries ?s1 ?q) =>
      replace (boundary_config s) with (boundary_config s1)
        by (destruct dt_arg; reflexivity);
      apply handle_boundaries_within;
      replace (boundary_config s1) with (boundary_config s)
        by (destruct dt_arg; reflexivity)
  end.
  exact Hb.
Qed.

(** The default domain, and a tick that starts with a particle outside
    it. *)
Lemma boundary_containment_witness :
  (forall i, vget (Config.min_bounds BOUNDARY_CONFIG) i <=
             vget (Config.max_bounds BOUNDARY_CONFIG) i) /\
  Forall (within_bounds BOUNDARY_CONFIG)
         (particles (update (make_simulator FLUID_CONFIG [escaping_particle] 0.016) None)).
Proof.
  assert (Hb : forall i, vget (Config.min_bounds BOUNDARY_CONFIG) i <=
                         vget (Config.max_bounds BOUNDARY_CONFIG) i).
  { intros [ | | ]; simpl; lra. }
  split; [exact Hb |].
  exact (boundary_containment
           (make_simulator FLUID_CONFIG [escaping_particle] 0.016) None Hb).
Defined.

(** ** The stored time step *)

Lemma set_dt_same (s : Simulator) : set_dt s (dt s) = s.
Proof. destruct s; reflexivity. Qed.

Lemma run_call_dt (s s' : Simulator) (k : call) :
  no_dt_argument k -> run_call s k = Ok s' -> dt s' = dt s.
Proof.
  destruct k as [[d |] | pos radius f |]; simpl; intros Hk Hrun.
  - destruct Hk.
  - injection Hrun as <-; reflexivity.
  - injection Hrun as <-; reflexivity.
  - unfold reset, _initialize_particles in Hrun.
    destruct (num_particles s <? 0)%Z; [discriminate |].
    injection Hrun as <-; reflexivity.
Qed.

Lemma run_dt (calls : list call) :
  Forall no_dt_argument calls ->
  forall s s', run s calls = Ok s' -> dt s' = dt s.
Proof.
  induction 1 as [| k calls Hk _ IH]; intros s s' Hrun; simpl in Hrun.
  - injection Hrun as <-; reflexivity.
  - destruct (run_call s k) as [s1 | e] eqn:Hcall; [| discriminate].
    simpl in Hrun.
    rewrite (IH _ _ Hrun).
    exact (run_call_dt _ _ _ Hk Hcall).
Qed.

(** C9: [update(dt)] overwrites the stored time step for good.  After
    it, and after any further calls that pass no [dt], the stored step
    is still the override: an [update()] without argument behaves as
    [update(d)], and [add_external_force] scales its push by [d]. *)
Theorem dt_override_persists (s s' : Simulator) (d : R) (calls : list call) :
  Forall no_dt_argument calls ->
  run (update s (Some d)) calls = Ok s' ->
  dt s' = d /\
  update s' None = update s' (Some d) /\
  forall pos radius f,
    particles (add_external_force s' pos radius f) =
    map (pushed pos radius f d) (particles s').
Proof.
  intros Hcalls Hrun.
  assert (Hdt : dt s' = d) by (rewrite (run_dt calls Hcalls _ _ Hrun); reflexivity).
  split; [exact Hdt | split].
  - unfold update; now rewrite <- Hdt, set_dt_same.
  - intros pos radius f.
    rewrite add_external_force_particles.
    apply list_eq; intros i.
    rewrite list_lookup_imap, list_lookup_fmap.
    destruct (particles s' !! i) as [p |]; [simpl | reflexivity].
    unfold external_force_body, pushed; now rewrite Hdt.
Qed.

(** An override to [0.001] followed by a tick, a force and a tick. *)
Lemma dt_override_persists_witness :
  Forall no_dt_argument
         [DoUpdate None; DoAddExternalForce (Vec3 0 0 0) 0.3 (Vec3 10 0 0); DoUpdate None] /\
  exists s',
    run (update (make_simulator FLUID_CONFIG [escaping_particle] 0.016) (Some 0.001))
        [DoUpdate None; DoAddExternalForce (Vec3 0 0 0) 0.3 (Vec3 10 0 0); DoUpdate None]
    = Ok s' /\
    dt s' = 0.001 /\
    update s' None = update s' (Some 0.001) /\
    forall pos radius f,
      particles (add_external_force s' pos radius f) =
      map (pushed pos radius f 0.001) (particles s').
Proof.
  assert (Hc : Forall no_dt_argument
                 [DoUpdate None; DoAddExternalForce (Vec3 0 0 0) 0.3 (Vec3 10 0 0);
                  DoUpdate None]).
  { repeat constructor. }
  split; [exact Hc |].
  eexists; split; [reflexivity |].
  exact (dt_override_persists
           (make_simulator FLUID_CONFIG [escaping_particle] 0.016) _ 0.001 _
           Hc eq_refl).
Defined.

(** ** External forces *)

Lemma loop_i_single (spacing : R) :
  loop_i 1 1 spacing (range 1) ([], 0%Z) =
  ([Particle_init (grid_point 1 spacing 0 0 0)], 1%Z).
Proof. reflexivity. Qed.

(** The one particle sits at [(0 - 1/2) * 0.04] on the x and z axes and
    half a unit higher on the y axis. *)
Lemma init_single_config :
  SPHFluidSimulator_init (Some single_config) =
  Ok (make_simulator single_config [Particle_init (Vec3 (-0.02) 0.48 (-0.02))] 0.016).
Proof.
  rewrite init_unfold by (simpl; lra).
  unfold _initialize_particles.
  cbn [num_particles make_simulator config_or_default Config.num_particles
       Config.time_step Config.smoothing_radius smoothing_radius single_config].
  rewrite (particles_per_dim_eq 1 1) by lia.
  rewrite loop_i_single.
  cbn [Z.ltb Z.compare fst].
  unfold set_particles, make_simulator; cbn -[Rmult Rdiv Rplus Rminus IZR pow PI].
  do 2 f_equal.
  unfold Particle_init, grid_point; do 3 f_equal; lra.
Qed.

(** C2, as stated, fails: on the one-particle simulator a force request
    centred on the particle changes its velocity at once, before any
    [update]. *)
Lemma add_external_force_changes_velocity :
  exists s,
    SPHFluidSimulator_init (Some single_config) = Ok s /\
    get_particle_velocities s = [Vec3 0 0 0] /\
    get_particle_velocities
      (add_external_force s (Vec3 (-0.02) 0.48 (-0.02)) 1 (Vec3 1 0 0))
    <> get_particle_velocities s.
Proof.
  eexists; split; [exact init_single_config |].
  split; [reflexivity |].
  unfold get_particle_velocities.
  rewrite add_external_force_particles.
  cbn [particles make_simulator imap map].
  unfold external_force_body.
  cbn [position Particle_init].
  unfold norm; rewrite dot_self_zero, sqrt_0.
  destruct (Rlt_dec 0 1) as [_ | Hn]; [| exfalso; lra].
  cbn; intros Heq.
  injection Heq as Hx _ _.
  lra.
Qed.

(** C2, amended: [add_external_force] queues nothing.  It leaves every
    position unchanged and at once adds [force * (1 - d/radius) * dt],
    with the stored [dt], to the velocity of every particle at distance
    [d < radius]; the other particles and every other attribute of the
    simulator are untouched. *)
Theorem add_external_force_immediate (s : Simulator) (pos : vec3) (radius : R) (f : vec3) :
  get_particle_positions (add_external_force s pos radius f) =
  get_particle_positions s /\
  get_particle_velocities (add_external_force s pos radius f) =
  map (fun p =>
         if Rlt_dec (norm (vsub (position p) pos)) radius then
           vadd (velocity p)
                (vmul (vmul f (1 - norm (vsub (position p) pos) / radius)) (dt s))
         else velocity p)
      (particles s) /\
  particles (add_external_force s pos radius f) =
  map (pushed pos radius f (dt s)) (particles s) /\
  set_particles (add_external_force s pos radius f) (particles s) = s.
Proof.
  unfold get_particle_positions, get_particle_velocities.
  rewrite add_external_force_particles.
  split; [| split; [| split]].
  - apply map_imap_preserved; intros i p; unfold external_force_body.
    now destruct (Rlt_dec _ _).
  - apply list_eq; intros i.
    rewrite !list_lookup_fmap, list_lookup_imap.
    destruct (particles s !! i) as [p |]; [simpl | reflexivity].
    unfold external_force_body; now destruct (Rlt_dec _ _).
  - apply list_eq; intros i.
    rewrite list_lookup_fmap, list_lookup_imap.
    destruct (particles s !! i) as [p |]; reflexivity.
  - destruct s; reflexivity.
Qed.

(** ** The pressure-gradient kernel *)

(** C6: below the epsilon [1e-6] and from the smoothing radius on,
    [_spiky_gradient] is the zero vector and [r_vec / r] is not
    evaluated; in particular the gradient between two coincident
    particles is zero. *)
Theorem spiky_gradient_guard (s : Simulator) (r_vec : vec3) (r : R) :
  r < 1e-6 \/ r >= h s ->
  _spiky_gradient s r_vec r = vzero /\
  forall p q : Particle,
    position p = position q ->
    _spiky_gradient s (vsub (position p) (position q))
                    (norm (vsub (position p) (position q))) = vzero.
Proof.
  intros Hr; split.
  - unfold _spiky_gradient; real_cases; solve [reflexivity | lra].
  - intros p q Hpq; rewrite Hpq.
    unfold norm; rewrite dot_self_zero, sqrt_0.
    unfold _spiky_gradient; real_cases; solve [reflexivity | lra].
Qed.

(** Zero distance on the default simulator. *)
Lemma spiky_gradient_guard_witness :
  (0 < 1e-6 \/ 0 >= h (make_simulator FLUID_CONFIG [] 0.016)) /\
  _spiky_gradient (make_simulator FLUID_CONFIG [] 0.016) (Vec3 0 0 0) 0 = vzero.
Proof.
  assert (Hr : 0 < 1e-6 \/ 0 >= h (make_simulator FLUID_CONFIG [] 0.016)) by (left; lra).
  split; [exact Hr |].
  exact (proj1 (spiky_gradient_guard
                  (make_simulator FLUID_CONFIG [] 0.016) (Vec3 0 0 0) 0 Hr)).
Defined.

(** ** The pressure force *)








(** The three cases of one iteration of the force loop. *)
Lemma force_step_self (s : Simulator) (i : nat) (p q : Particle) (acc : vec3 * vec3) :
  force_step s i p acc (i, q) = acc.
Proof.
  unfold force_step; cbn [fst snd].
  destruct (Nat.eq_dec i i); [reflexivity | contradiction].
Qed.

Lemma force_step_far (s : Simulator) (i j : nat) (p q : Particle) (acc : vec3 * vec3) :
  ~ norm (vsub (position p) (position q)) < h s ->
  force_step s i p acc (j, q) = acc.
Proof.
  intros Hfar; unfold force_step; cbn [fst snd].
  destruct (Nat.eq_dec i j); [reflexivity |].
  destruct (Rlt_dec _ _); [contradiction | reflexivity].
Qed.


Lemma spiky_gradient_inside (s : Simulator) (r_vec : vec3) (r : R) :
  1e-6 <= r < h s ->
  _spiky_gradient s r_vec r =
  vscale (spiky_constant s * (h s - r) * (h s - r)) (vdiv r_vec r).
Proof.
  intros [Hlo Hhi]; unfold _spiky_gradient.
  real_cases; solve [reflexivity | lra].
Qed.






(** ** The spatial hash grid *)

Lemma range2_In (a b z : Z) : In z (range2 a b) <-> (a <= z < b)%Z.
Proof.
  unfold range2; rewrite in_map_iff; split.
  - intros (i & <- & Hi); apply in_seq in Hi; lia.
  - intros Hz; exists (Z.to_nat (z - a)); split; [lia |].
    apply in_seq; lia.
Qed.



(** A fold whose step never loses [P] and establishes it at [x0]. *)
Lemma fold_left_reaches {A B : Type} (f : A -> B -> A) (P : A -> Prop) (x0 : B)
    (l : list B) :
  (forall acc x, P acc -> P (f acc x)) ->
  (forall acc, P (f acc x0)) ->
  In x0 l -> forall acc, P (fold_left f l acc).
Proof.
  intros Hkeep Hx0 Hin.
  assert (Hall : forall l' acc, P acc -> P (fold_left f l' acc)).
  { induction l' as [| x l' IH]; intros acc Hacc; simpl; [assumption |].
    apply IH, Hkeep, Hacc. }
  induction l as [| x l IH]; intros acc; [destruct Hin |].
  simpl; destruct Hin as [-> | Hin]; [apply Hall, Hx0 | now apply IH].
Qed.

Lemma fold_left_keeps {A B : Type} (f : A -> B -> A) (P : A -> Prop) (l : list B) :
  (forall acc x, P acc -> P (f acc x)) ->
  forall acc, P acc -> P (fold_left f l acc).
Proof.
  intros Hkeep; induction l as [| x l IH]; intros acc Hacc; simpl; [assumption |].
  apply IH, Hkeep, Hacc.
Qed.

Lemma hash_position_ok (g : SpatialHashGrid.t) (position : vec3) :
  SpatialHashGrid.cell_size g <> 0 ->
  SpatialHashGrid._hash_position g position =
  Ok (cell_of (SpatialHashGrid.cell_size g) position).
Proof.
  intros Hc; unfold SpatialHashGrid._hash_position, int_np_div.
  destruct (Req_dec_T (SpatialHashGrid.cell_size g) 0); [contradiction |].
  reflexivity.
Qed.

Lemma insert_spec (g : SpatialHashGrid.t) (id : Z) (position : vec3) :
  SpatialHashGrid.cell_size g <> 0 ->
  exists g',
    SpatialHashGrid.insert g id position = Ok g' /\
    SpatialHashGrid.cell_size g' = SpatialHashGrid.cell_size g /\
    stored g' (cell_of (SpatialHashGrid.cell_size g) position) id /\
    forall c id', stored g c id' -> stored g' c id'.
Proof.
  intros Hc; unfold SpatialHashGrid.insert.
  rewrite hash_position_ok by assumption; cbn [bind].
  set (c0 := cell_of (SpatialHashGrid.cell_size g) position).
  eexists; split; [reflexivity |]; split; [reflexivity |].
  unfold stored; cbn [SpatialHashGrid.grid]; split.
  - destruct (SpatialHashGrid.grid g !! c0) as [bucket |] eqn:Hb.
    + exists (bucket ++ [id]); split.
      * now rewrite lookup_alter_eq, Hb.
      * apply in_or_app; right; now left.
    + exists ([] ++ [id]); split.
      * now rewrite lookup_alter_eq, lookup_insert_eq.
      * now left.
  - intros c id' (bucket & Hb & Hin).
    destruct (decide (c0 = c)) as [<- | Hne].
    + exists (bucket ++ [id]); split.
      * rewrite lookup_alter_eq.
        destruct (SpatialHashGrid.grid g !! c0) eqn:Hb'; [| discriminate].
        now rewrite Hb', Hb.
      * apply in_or_app; now left.
    + exists bucket; split; [| assumption].
      rewrite lookup_alter_ne by assumption.
      destruct (SpatialHashGrid.grid g !! c0); [assumption |].
      now rewrite lookup_insert_ne.
Qed.

Lemma insert_all_spec (items : list (Z * vec3)) :
  forall g, SpatialHashGrid.cell_size g <> 0 ->
  exists g',
    SpatialHashGrid.insert_all g items = Ok g' /\
    SpatialHashGrid.cell_size g' = SpatialHashGrid.cell_size g /\
    (forall id p, In (id, p) items ->
                  stored g' (cell_of (SpatialHashGrid.cell_size g) p) id) /\
    forall c id', stored g c id' -> stored g' c id'.
Proof.
  induction items as [| [id p] items IH]; intros g Hc; simpl.
  - exists g; repeat split; [intros ? ? [] | auto].
  - destruct (insert_spec g id p Hc) as (g1 & -> & Hc1 & Hst & Hkeep); cbn [bind].
    destruct (IH g1) as (g' & Hok & Hc' & Hitems & Hkeep'); [congruence |].
    exists g'; split; [exact Hok |]; split; [congruence |]; split.
    + intros id' p' [Heq | Hin].
      * injection Heq as <- <-; now apply Hkeep'.
      * rewrite <- Hc1; now apply Hitems.
    + intros c id' Hs; now apply Hkeep', Hkeep.
Qed.

Lemma visit_keeps (g : SpatialHashGrid.t) (cc : SpatialHashGrid.cell)
    (dx dy dz id : Z) (acc : list Z) :
  In id acc -> In id (SpatialHashGrid.visit g cc dx dy dz acc).
Proof.
  intros Hin; unfold SpatialHashGrid.visit.
  destruct (SpatialHashGrid.grid g !! _); [apply in_or_app; now left | assumption].
Qed.

Lemma visit_reaches (g : SpatialHashGrid.t) (cc c : SpatialHashGrid.cell)
    (id : Z) (acc : list Z) :
  stored g c id ->
  In id (SpatialHashGrid.visit g cc (c.1.1 - cc.1.1) (c.1.2 - cc.1.2) (c.2 - cc.2) acc).
Proof.
  intros (bucket & Hb & Hin); unfold SpatialHashGrid.visit.
  replace (cc.1.1 + (c.1.1 - cc.1.1), cc.1.2 + (c.1.2 - cc.1.2), cc.2 + (c.2 - cc.2))%Z
    with c by (destruct c as [[? ?] ?]; simpl; f_equal; [f_equal |]; lia).
  rewrite Hb; apply in_or_app; now right.
Qed.

(** [query_neighbors] returns every id stored in a cell whose three
    coordinates are within [cell_radius] of the centre cell. *)
Lemma query_spec (g : SpatialHashGrid.t) (position : vec3) (radius : R) :
  SpatialHashGrid.cell_size g <> 0 ->
  exists found,
    SpatialHashGrid.query_neighbors g position radius = Ok found /\
    forall c id,
      stored g c id ->
      let cr := py_int (np_ceil (radius / SpatialHashGrid.cell_size g)) in
      let cc := cell_of (SpatialHashGrid.cell_size g) position in
      (- cr <= c.1.1 - cc.1.1 <= cr)%Z ->
      (- cr <= c.1.2 - cc.1.2 <= cr)%Z ->
      (- cr <= c.2 - cc.2 <= cr)%Z ->
      In id found.
Proof.
  intros Hc; unfold SpatialHashGrid.query_neighbors, py_div.
  destruct (Req_dec_T (SpatialHashGrid.cell_size g) 0); [contradiction |].
  rewrite hash_position_ok by assumption; cbn [bind].
  eexists; split; [reflexivity |].
  intros c id Hst Hx Hy Hz.
  set (cr := py_int (np_ceil (radius / SpatialHashGrid.cell_size g))) in *.
  set (cc := cell_of (SpatialHashGrid.cell_size g) position) in *.
  apply (fold_left_reaches _ (fun acc => In id acc) (c.1.1 - cc.1.1)%Z).
  - intros acc dx Hacc.
    apply (fold_left_keeps _ (fun acc => In id acc)); [| assumption].
    intros acc' dy Hacc'.
    apply (fold_left_keeps _ (fun acc => In id acc)); [| assumption].
    intros acc'' dz Hacc''; now apply visit_keeps.
  - intros acc.
    apply (fold_left_reaches _ (fun acc => In id acc) (c.1.2 - cc.1.2)%Z).
    + intros acc' dy Hacc'.
      apply (fold_left_keeps _ (fun acc => In id acc)); [| assumption].
      intros acc'' dz Hacc''; now apply visit_keeps.
    + intros acc'.
      apply (fold_left_reaches _ (fun acc => In id acc) (c.2 - cc.2)%Z).
      * intros acc'' dz Hacc''; now apply visit_keeps.
      * intros acc''; now apply visit_reaches.
      * apply range2_In; lia.
    + apply range2_In; lia.
  - apply range2_In; lia.
Qed.



(** The positive cell size is needed: with a negative one the range of
    cell offsets is empty and a particle at the query position itself is
    missed. *)
Remark query_negative_cell_size :
  exists g,
    SpatialHashGrid.insert_all (SpatialHashGrid.init (-1)) [(0%Z, Vec3 0 0 0)] = Ok g /\
    SpatialHashGrid.query_neighbors g (Vec3 0 0 0) 1 = Ok [].
Proof.
  destruct (insert_all_spec [(0%Z, Vec3 0 0 0)] (SpatialHashGrid.init (-1)))
    as (g & Hins & Hsize & _); [simpl; lra |].
  exists g; split; [exact Hins |].
  unfold SpatialHashGrid.query_neighbors, py_div; rewrite Hsize.
  cbn [SpatialHashGrid.cell_size SpatialHashGrid.init].
  destruct (Req_dec_T (-1) 0); [lra |].
  rewrite hash_position_ok by (rewrite Hsize; simpl; lra); cbn [bind].
  replace (1 / -1) with (IZR (-1)) by (simpl; lra).
  replace (np_ceil (IZR (-1))) with (IZR (-1))
    by (unfold np_ceil; rewrite <- opp_IZR, Int_part_IZR; reflexivity).
  rewrite py_int_IZR.
  reflexivity.
Qed.

(** * Further properties of the simulator *)

(** ** The particle list over a session *)

Lemma update_length (s : Simulator) (dt_arg : option R) :
  length (particles (update s dt_arg)) = length (particles s).
Proof.
  unfold update.
  rewrite integrate_particles, length_imap.
  rewrite compute_forces_particles, length_imap.
  rewrite compute_density_pressure_particles, length_imap.
  now destruct dt_arg.
Qed.

Lemma add_external_force_length (s : Simulator) (pos : vec3) (radius : R) (f : vec3) :
  length (particles (add_external_force s pos radius f)) = length (particles s).
Proof. now rewrite add_external_force_particles, length_imap. Qed.

Lemma run_call_count (s s' : Simulator) (k : call) :
  (0 <= num_particles s)%Z ->
  Z.of_nat (length (particles s)) = num_particles s ->
  run_call s k = Ok s' ->
  num_particles s' = num_particles s /\
  Z.of_nat (length (particles s')) = num_particles s.
Proof.
  intros Hn Hlen; destruct k as [dt_arg | pos radius f |]; simpl; intros Hrun.
  - injection Hrun as <-; split; [now destruct dt_arg |].
    now rewrite update_length.
  - injection Hrun as <-; split; [reflexivity |].
    now rewrite add_external_force_length.
  - destruct (initialize_particles_spec s Hn) as (s1 & Hs1 & Hattr & Hlen1 & _).
    unfold reset in Hrun; rewrite Hs1 in Hrun; injection Hrun as <-.
    split; [| assumption].
    unfold same_attributes in Hattr.
    apply (f_equal num_particles) in Hattr; simpl in Hattr; congruence.
Qed.

Lemma run_count (calls : list call) :
  forall s s',
    (0 <= num_particles s)%Z ->
    Z.of_nat (length (particles s)) = num_particles s ->
    run s calls = Ok s' ->
    Z.of_nat (length (particles s')) = num_particles s.
Proof.
  induction calls as [| k calls IH]; intros s s' Hn Hlen Hrun; simpl in Hrun.
  - now injection Hrun as <-.
  - destruct (run_call s k) as [s1 | e] eqn:Hcall; [| discriminate].
    destruct (run_call_count s s1 k Hn Hlen Hcall) as [Hn1 Hlen1].
    simpl in Hrun; rewrite <- Hn1.
    apply (IH s1 s'); [congruence | congruence | assumption].
Qed.

(** X1: the public calls never create or destroy particles.  In every
    state of a session the list holds exactly the configured number of
    particles, and the two snapshot getters return that many rows. *)
Theorem session_particle_count (cfg : option Config.FluidConfig) (calls : list call)
    (s : Simulator) :
  session cfg calls = Ok s ->
  Z.of_nat (length (particles s)) = Config.num_particles (config_or_default cfg) /\
  length (get_particle_positions s) = length (particles s) /\
  length (get_particle_velocities s) = length (particles s).
Proof.
  unfold session; intros Hs.
  destruct (SPHFluidSimulator_init cfg) as [s0 | e] eqn:Hinit; [| discriminate].
  destruct (init_inv _ _ Hinit) as (_ & Hn & ps0 & -> & Hlen0 & _).
  simpl in Hs; split.
  - exact (run_count calls (make_simulator (config_or_default cfg) ps0
                                           (Config.time_step (config_or_default cfg)))
                     s Hn Hlen0 Hs).
  - unfold get_particle_positions, get_particle_velocities.
    now rewrite !length_map.
Qed.

(** The default simulator after a tick, a force, a reset and a tick. *)
Lemma session_particle_count_witness :
  exists s,
    session None [DoUpdate None;
                  DoAddExternalForce (Vec3 0 0 0) 0.3 (Vec3 10 0 0);
                  DoReset;
                  DoUpdate (Some 0.01)] = Ok s /\
    Z.of_nat (length (particles s)) = 500%Z.
Proof.
  destruct (session_total None
              [DoUpdate None;
               DoAddExternalForce (Vec3 0 0 0) 0.3 (Vec3 10 0 0);
               DoReset;
               DoUpdate (Some 0.01)]) as [s Hs].
  - simpl; lra.
  - simpl; lia.
  - exists s; split; [exact Hs |].
    exact (proj1 (session_particle_count None _ s Hs)).
Defined.

(** ** The initial layout *)

Section GridLayout.

Variable n : Z.
Variable ppd : Z.
Variable spacing : R.

(** The exact result of the innermost loop: it appends the particles
    of the first slots of the row until [count] reaches [n]. *)
Lemma loop_k_exact (ks : list Z) (i j : Z) (st : grid_state) :
  loop_k n ppd spacing ks i j st =
  (fst st ++ (Particle_init <$>
                (grid_point ppd spacing i j <$> take (Z.to_nat (n - snd st)) ks)),
   (snd st + Z.of_nat (length (take (Z.to_nat (n - snd st)) ks)))%Z).
Proof.
  revert st; induction ks as [| k ks IH]; intros [ps c]; simpl.
  - rewrite take_nil, app_nil_r; simpl; f_equal; lia.
  - destruct (Z.geb_spec c n) as [Hge | Hlt].
    + replace (Z.to_nat (n - c)) with 0%nat by lia.
      simpl; rewrite app_nil_r; f_equal; lia.
    + rewrite IH; simpl.
      replace (Z.to_nat (n - c)) with (S (Z.to_nat (n - (c + 1)))) by lia.
      simpl; rewrite <- app_assoc; simpl; f_equal; lia.
Qed.

Lemma loop_j_exact (js : list Z) (i : Z) (st : grid_state) :
  (0 <= ppd)%Z ->
  loop_j n ppd spacing js i st =
  (fst st ++ (Particle_init <$>
                take (Z.to_nat (n - snd st))
                     (js ≫= λ j, grid_point ppd spacing i j <$> range ppd)),
   (snd st + Z.of_nat (length (take (Z.to_nat (n - snd st))
                                    (js ≫= λ j, grid_point ppd spacing i j <$> range ppd))))%Z).
Proof.
  intros Hp; revert st; induction js as [| j js IH]; intros [ps c].
  - simpl; rewrite take_nil, app_nil_r; simpl; f_equal; lia.
  - cbn [loop_j]; rewrite bind_cons, loop_k_exact; cbn [fst snd].
    set (row := grid_point ppd spacing i j <$> range ppd).
    set (rest := js ≫= λ j0, grid_point ppd spacing i j0 <$> range ppd).
    set (m := Z.to_nat (n - c)).
    replace (grid_point ppd spacing i j <$> take m (range ppd)) with (take m row)
      by (unfold row; now rewrite fmap_take).
    replace (length (take m (range ppd))) with (length (take m row))
      by (unfold row; now rewrite !length_take, length_fmap).
    rewrite take_app, fmap_app, length_app.
    destruct (Z.geb_spec (c + Z.of_nat (length (take m row))) n) as [Hge | Hlt].
    + rewrite length_take in Hge.
      replace (m - length row)%nat with 0%nat by lia.
      rewrite take_0; simpl; rewrite !app_nil_r, Nat.add_0_r.
      reflexivity.
    + rewrite IH; cbn [fst snd]; fold rest.
      rewrite length_take in Hlt.
      replace (Z.to_nat (n - (c + Z.of_nat (length (take m row)))))
        with (m - length row)%nat by (rewrite length_take; lia).
      rewrite <- app_assoc.
      f_equal; lia.
Qed.

Lemma loop_i_exact (il : list Z) (st : grid_state) :
  (0 <= ppd)%Z ->
  loop_i n ppd spacing il st =
  (fst st ++ (Particle_init <$>
                take (Z.to_nat (n - snd st))
                     (il ≫= λ i, range ppd ≫= λ j,
                                 grid_point ppd spacing i j <$> range ppd)),
   (snd st + Z.of_nat (length (take (Z.to_nat (n - snd st))
                                    (il ≫= λ i, range ppd ≫= λ j,
                                                grid_point ppd spacing i j <$> range ppd))))%Z).
Proof.
  intros Hp; revert st; induction il as [| i il IH]; intros [ps c].
  - simpl; rewrite take_nil, app_nil_r; simpl; f_equal; lia.
  - cbn [loop_i]; rewrite bind_cons, loop_j_exact by assumption; cbn [fst snd].
    set (plane := range ppd ≫= λ j, grid_point ppd spacing i j <$> range ppd).
    set (rest := il ≫= λ i0, range ppd ≫= λ j,
                                 grid_point ppd spacing i0 j <$> range ppd).
    set (m := Z.to_nat (n - c)).
    rewrite take_app, fmap_app, length_app.
    destruct (Z.geb_spec (c + Z.of_nat (length (take m plane))) n) as [Hge | Hlt].
    + rewrite length_take in Hge.
      replace (m - length plane)%nat with 0%nat by lia.
      rewrite take_0; simpl; rewrite !app_nil_r, Nat.add_0_r.
      reflexivity.
    + rewrite IH; cbn [fst snd]; fold rest.
      rewrite length_take in Hlt.
      replace (Z.to_nat (n - (c + Z.of_nat (length (take m plane)))))
        with (m - length plane)%nat by (rewrite length_take; lia).
      rewrite <- app_assoc.
      f_equal; lia.
Qed.

End GridLayout.

Lemma initialize_particles_make (c : Config.FluidConfig) (ps : list Particle) (d : R) :
  (0 <= Config.num_particles c)%Z ->
  _initialize_particles (make_simulator c ps d) =
  Ok (make_simulator c (initial_particles c) d).
Proof.
  intros Hn; unfold _initialize_particles.
  cbn [num_particles smoothing_radius make_simulator].
  destruct (Z.ltb_spec (Config.num_particles c) 0) as [| _]; [lia |].
  destruct (particles_per_dim_spec _ Hn) as [Hp _].
  rewrite loop_i_exact by assumption; cbn [fst snd].
  rewrite Z.sub_0_r; reflexivity.
Qed.



(** X3: [reset] puts back exactly the particle list the constructor
    built, whatever the session did before, and keeps the stored time
    step: a [dt] override survives the reset. *)
Theorem reset_restores_initial_particles (cfg : option Config.FluidConfig)
    (calls : list call) (s : Simulator) :
  session cfg calls = Ok s ->
  exists s0 s',
    SPHFluidSimulator_init cfg = Ok s0 /\
    reset s = Ok s' /\
    particles s' = particles s0 /\
    dt s' = dt s.
Proof.
  intros Hs.
  destruct (session_inv _ _ _ Hs) as (ps & d & -> & _).
  unfold session in Hs.
  destruct (SPHFluidSimulator_init cfg) as [s0 | e] eqn:Hinit; [| discriminate].
  destruct (init_inv _ _ Hinit) as (Hh & Hn & _).
  rewrite init_unfold, initialize_particles_make in Hinit by assumption.
  injection Hinit as <-.
  unfold reset; rewrite initialize_particles_make by assumption.
  do 2 eexists; repeat split; reflexivity.
Qed.

(** A tick with an overridden time step, a force, then the reset. *)
Lemma reset_restores_initial_particles_witness :
  exists s s0 s',
    session None [DoUpdate (Some 0.001);
                  DoAddExternalForce (Vec3 0 0 0) 0.3 (Vec3 10 0 0)] = Ok s /\
    SPHFluidSimulator_init None = Ok s0 /\
    reset s = Ok s' /\
    particles s' = particles s0 /\
    dt s' = dt s.
Proof.
  destruct (session_total None
              [DoUpdate (Some 0.001);
               DoAddExternalForce (Vec3 0 0 0) 0.3 (Vec3 10 0 0)]) as [s Hs].
  - simpl; lra.
  - simpl; lia.
  - destruct (reset_restores_initial_particles None _ s Hs) as (s0 & s' & H).
    exists s, s0, s'; split; [exact Hs | exact H].
Defined.






(** ** Boundary handling *)

(** X5: [_handle_boundaries] treats the three axes independently.  On
    each axis a coordinate below the lower bound is moved onto it, one
    above the upper bound onto that, and in both cases the velocity
    component is multiplied by [-restitution]; a coordinate within the
    bounds keeps its value and its velocity component.  Mass, force,
    density and pressure are never touched. *)
Theorem handle_boundaries_axis (s : Simulator) (p : Particle) (i : axis) :
  let b := boundary_config s in
  let lo := vget (Config.min_bounds b) i in
  let hi := vget (Config.max_bounds b) i in
  let x := vget (position p) i in
  let v := vget (velocity p) i in
  let q := _handle_boundaries s p in
  (x < lo -> vget (position q) i = lo /\
             vget (velocity q) i = v * - Config.restitution b) /\
  (lo <= x -> hi < x -> vget (position q) i = hi /\
                        vget (velocity q) i = v * - Config.restitution b) /\
  (lo <= x <= hi -> vget (position q) i = x /\ vget (velocity q) i = v) /\
  mass q = mass p /\ force q = force p /\
  density q = density p /\ pressure q = pressure p.
Proof.
  cbv zeta.
  destruct (handle_boundaries_frame s p) as (Hf & Hd & Hpr & Hm).
  repeat split; try assumption;
    unfold _handle_boundaries, axes; simpl fold_left;
    destruct (boundary_config s) as [[x0 y0 z0] [x1 y1 z1] e];
    destruct p as [[x y z] [u v w] f dn pr m]; simpl in *;
    unfold boundary_step; simpl;
    (destruct (Rlt_dec x x0); [| destruct (Rgt_dec x x1)]); simpl;
    (destruct (Rlt_dec y y0); [| destruct (Rgt_dec y y1)]); simpl;
    (destruct (Rlt_dec z z0); [| destruct (Rgt_dec z z1)]); simpl;
    destruct i; simpl in *; solve [reflexivity | lra].
Qed.

Lemma handle_boundaries_inside (s : Simulator) (p : Particle) :
  within_bounds (boundary_config s) p -> _handle_boundaries s p = p.
Proof.
  intros Hin.
  pose proof (Hin X) as HX; pose proof (Hin Y) as HY; pose proof (Hin Z3) as HZ.
  unfold _handle_boundaries, axes; simpl fold_left.
  destruct (boundary_config s) as [[x0 y0 z0] [x1 y1 z1] e].
  destruct p as [[x y z] [u v w] f dn pr m]; simpl in *.
  unfold boundary_step; simpl.
  destruct (Rlt_dec x x0); [lra |]; destruct (Rgt_dec x x1); [lra |]; simpl.
  destruct (Rlt_dec y y0); [lra |]; destruct (Rgt_dec y y1); [lra |]; simpl.
  destruct (Rlt_dec z z0); [lra |]; destruct (Rgt_dec z z1); [lra |]; reflexivity.
Qed.

(** X6: a particle inside the domain passes through
    [_handle_boundaries] unchanged, and with ordered bounds handling
    twice is handling once: the velocity is reflected a single time. *)
Theorem handle_boundaries_idempotent (s : Simulator) (p : Particle) :
  (forall i, vget (Config.min_bounds (boundary_config s)) i <=
             vget (Config.max_bounds (boundary_config s)) i) ->
  (within_bounds (boundary_config s) p -> _handle_boundaries s p = p) /\
  _handle_boundaries s (_handle_boundaries s p) = _handle_boundaries s p.
Proof.
  intros Hb; split.
  - apply handle_boundaries_inside.
  - apply handle_boundaries_inside, handle_boundaries_within, Hb.
Qed.

(** The default domain and the particle that starts outside it. *)
Lemma handle_boundaries_idempotent_witness :
  let s := make_simulator FLUID_CONFIG [escaping_particle] 0.016 in
  (forall i, vget (Config.min_bounds (boundary_config s)) i <=
             vget (Config.max_bounds (boundary_config s)) i) /\
  _handle_boundaries s (_handle_boundaries s escaping_particle) =
  _handle_boundaries s escaping_particle.
Proof.
  intros s.
  assert (Hb : forall i, vget (Config.min_bounds (boundary_config s)) i <=
                         vget (Config.max_bounds (boundary_config s)) i).
  { intros [ | | ]; simpl; lra. }
  split; [exact Hb |].
  exact (proj2 (handle_boundaries_idempotent s escaping_particle Hb)).
Defined.

(** ** External forces: the edges of the radius *)

Lemma imap_same (f : nat -> Particle -> Particle) (ps : list Particle) :
  (forall i p, ps !! i = Some p -> f i p = p) -> imap f ps = ps.
Proof.
  intros Hf; apply list_eq; intros i.
  rewrite list_lookup_imap.
  destruct (ps !! i) as [p |] eqn:Hp; simpl; [| reflexivity].
  now rewrite (Hf i p Hp).
Qed.

Lemma norm_nonneg (v : vec3) : 0 <= norm v.
Proof. apply sqrt_pos. Qed.

(** X7: a force request with a radius that is zero or negative does
    nothing at all: no particle is within it. *)
Theorem add_external_force_empty_radius (s : Simulator) (pos : vec3) (radius : R)
    (f : vec3) :
  radius <= 0 -> add_external_force s pos radius f = s.
Proof.
  intros Hr.
  assert (Hps : particles (add_external_force s pos radius f) = particles s).
  { rewrite add_external_force_particles.
    apply imap_same; intros i p _; unfold external_force_body.
    pose proof (norm_nonneg (vsub (position p) pos)).
    destruct (Rlt_dec _ _); [lra | reflexivity]. }
  unfold add_external_force in *; cbn [particles set_particles] in Hps.
  rewrite Hps; destruct s; reflexivity.
Qed.

(** A zero radius on the two-particle simulator. *)
Lemma add_external_force_empty_radius_witness :
  0 <= 0 /\
  add_external_force pair_state (Vec3 (-0.04) 0.46 0) 0 (Vec3 10 0 0) = pair_state.
Proof.
  assert (Hr : 0 <= 0) by lra.
  split; [exact Hr |].
  exact (add_external_force_empty_radius pair_state (Vec3 (-0.04) 0.46 0) 0
           (Vec3 10 0 0) Hr).
Defined.

(** X8: the falloff at its two ends.  A particle exactly at the centre
    of the request gets the whole [force * dt] added to its velocity; a
    particle at distance [radius] or more is left as it is. *)
Theorem add_external_force_falloff_ends (s : Simulator) (pos : vec3) (radius : R)
    (f : vec3) (i : nat) (p : Particle) :
  0 < radius ->
  particles s !! i = Some p ->
  (position p = pos ->
   particles (add_external_force s pos radius f) !! i =
   Some (set_position_velocity p (position p)
           (vadd (velocity p) (vmul f (dt s))))) /\
  (radius <= norm (vsub (position p) pos) ->
   particles (add_external_force s pos radius f) !! i = Some p).
Proof.
  intros Hr Hp.
  rewrite add_external_force_particles, list_lookup_imap, Hp; simpl.
  unfold external_force_body; split.
  - intros <-.
    unfold norm; rewrite dot_self_zero, sqrt_0.
    destruct (Rlt_dec 0 radius); [| contradiction].
    do 3 f_equal.
    unfold vmul; simpl; f_equal; field; lra.
  - intros Hfar.
    destruct (Rlt_dec _ _); [lra | reflexivity].
Qed.

(** The one-particle simulator, pushed at its particle. *)
Lemma add_external_force_falloff_ends_witness :
  let s := make_simulator single_config
             [Particle_init (Vec3 (-0.02) 0.48 (-0.02))] 0.016 in
  let p := Particle_init (Vec3 (-0.02) 0.48 (-0.02)) in
  0 < 0.3 /\
  particles s !! 0%nat = Some p /\
  particles (add_external_force s (Vec3 (-0.02) 0.48 (-0.02)) 0.3 (Vec3 10 0 0)) !! 0%nat =
  Some (set_position_velocity p (position p)
          (vadd (velocity p) (vmul (Vec3 10 0 0) 0.016))).
Proof.
  intros s p.
  assert (Hr : 0 < 0.3) by lra.
  assert (Hp : particles s !! 0%nat = Some p) by reflexivity.
  split; [exact Hr | split; [exact Hp |]].
  exact (proj1 (add_external_force_falloff_ends s (Vec3 (-0.02) 0.48 (-0.02)) 0.3
                  (Vec3 10 0 0) 0 p Hr Hp) eq_refl).
Defined.

(** ** An isolated particle *)

Lemma fold_left_fixed {A B : Type} (f : A -> B -> A) (l : list B) (acc : A) :
  (forall x a, In x l -> f a x = a) -> fold_left f l acc = acc.
Proof.
  revert acc; induction l as [| x l IH]; intros acc Hf; simpl; [reflexivity |].
  rewrite (Hf x acc) by now left.
  apply IH; intros y a Hy; apply Hf; now right.
Qed.

(** At distance [h] or more the squared distance is [h2] or more. *)
Lemma far_dot (hh : R) (v : vec3) : 0 < hh -> hh <= norm v -> hh * hh <= dot v v.
Proof.
  intros Hh Hfar; unfold norm in Hfar.
  assert (Hd : 0 <= dot v v) by (unfold dot; nra).
  pose proof (sqrt_sqrt (dot v v) Hd) as Hss.
  pose proof (sqrt_pos (dot v v)).
  nra.
Qed.

Lemma enumerate_In_from (ps : list Particle) (start j : nat) (q : Particle) :
  In (j, q) (combine (seq start (length ps)) ps) ->
  (start <= j)%nat /\ ps !! (j - start)%nat = Some q.
Proof.
  revert start; induction ps as [| x ps IH]; intros start Hin; simpl in Hin.
  - destruct Hin.
  - destruct Hin as [Heq | Hin].
    + injection Heq as <- <-; split; [lia |].
      now rewrite Nat.sub_diag.
    + destruct (IH (S start) Hin) as [Hle Hq]; split; [lia |].
      replace (j - start)%nat with (S (j - S start)) by lia.
      exact Hq.
Qed.

Lemma enumerate_In (ps : list Particle) (j : nat) (q : Particle) :
  In (j, q) (enumerate ps) -> ps !! j = Some q.
Proof.
  intros Hin; destruct (enumerate_In_from ps 0 j q Hin) as [_ Hq].
  now rewrite Nat.sub_0_r in Hq.
Qed.

Lemma vadd_zero_l (v : vec3) : vadd (vadd vzero vzero) v = v.
Proof. destruct v; unfold vadd, vzero; simpl; f_equal; ring. Qed.

Section Isolated.

Variable c : Config.FluidConfig.
Variable ps : list Particle.
Variable i : nat.
Variable p : Particle.

Hypothesis radius_pos : 0 < Config.smoothing_radius c.
Hypothesis at_i : ps !! i = Some p.
Hypothesis alone :
  forall j q, ps !! j = Some q -> j <> i ->
              Config.smoothing_radius c <= norm (vsub (position p) (position q)).

(** The density of an isolated particle is its self-term. *)
Lemma isolated_density (d : R) :
  fold_left (density_step (make_simulator c ps d) p) ps 0 =
  mass p * _poly6_kernel (make_simulator c ps d) 0.
Proof.
  set (s := make_simulator c ps d).
  assert (Hfar : forall q acc,
            Config.smoothing_radius c <= norm (vsub (position p) (position q)) ->
            density_step s p acc q = acc).
  { intros q acc Hq; unfold density_step.
    pose proof (far_dot _ _ radius_pos Hq).
    destruct (Rlt_dec _ _) as [Hlt |]; [| reflexivity].
    simpl in Hlt; lra. }
  rewrite <- (take_drop_middle ps i p at_i) at 1.
  rewrite fold_left_app; cbn [fold_left].
  rewrite fold_left_fixed.
  2:{ intros q acc Hq; apply Hfar.
      apply list_elem_of_In, list_elem_of_lookup in Hq as (j & Hj).
      rewrite lookup_drop in Hj.
      apply (alone _ q Hj); lia. }
  rewrite fold_left_fixed.
  2:{ intros q acc Hq; apply Hfar.
      apply list_elem_of_In, elem_of_take in Hq as (j & Hj & Hlt).
      apply (alone j q Hj); lia. }
  unfold density_step; rewrite dot_self_zero.
  destruct (Rlt_dec 0 (h2 s)) as [| Hn]; [ring |].
  exfalso; apply Hn; simpl; nra.
Qed.

(** No neighbour contributes to the forces of an isolated particle. *)
Lemma isolated_force_loop (d : R) (cur : list Particle) (p1 : Particle) :
  position p1 = position p ->
  Forall2 same_position ps cur ->
  force_loop (make_simulator c cur d) i p1 (enumerate cur) = (vzero, vzero).
Proof.
  intros Hp1 Hcur; unfold force_loop.
  apply fold_left_fixed; intros [j q1] acc Hin.
  apply enumerate_In in Hin.
  destruct (Nat.eq_dec i j) as [<- | Hne]; [apply force_step_self |].
  apply force_step_far.
  destruct (Forall2_lookup_r _ _ _ _ _ Hcur Hin) as (q & Hq & Hpos).
  rewrite Hp1, <- Hpos.
  assert (Hfar := alone j q Hq (not_eq_sym Hne)).
  simpl; lra.
Qed.

End Isolated.

(** X9: a particle with no other particle closer than the smoothing
    radius falls freely.  After the density and force stages its
    density is the self-term, its force is gravity times that density,
    so its acceleration is gravity itself: the tick sets its velocity
    to [(v + gravity * dt) * damping], moves it by that velocity times
    [dt], and then handles the boundaries. *)
Theorem isolated_particle_update (c : Config.FluidConfig) (ps : list Particle)
    (d : R) (dt_arg : option R) (i : nat) (p : Particle) :
  0 < Config.smoothing_radius c ->
  0 < mass p ->
  ps !! i = Some p ->
  (forall j q, ps !! j = Some q -> j <> i ->
               Config.smoothing_radius c <= norm (vsub (position p) (position q))) ->
  let s := make_simulator c ps d in
  let step := match dt_arg with Some d' => d' | None => d end in
  let rho := mass p * _poly6_kernel s 0 in
  let v' := vmul (vadd (velocity p) (vmul (Config.gravity c) step)) (Config.damping c) in
  particles (update s dt_arg) !! i =
  Some (_handle_boundaries s
          {| position := vadd (position p) (vmul v' step);
             velocity := v';
             force := vmul (Config.gravity c) rho;
             density := rho;
             pressure := Config.gas_constant c * (rho - Config.rest_density c);
             mass := mass p |}).
Proof.
  intros Hh Hm Hp Halone s step rho v'.
  unfold update.
  replace (match dt_arg with
           | Some d0 => set_dt s d0
           | None => s
           end) with (make_simulator c ps step) by (destruct dt_arg; reflexivity).
  set (s1 := make_simulator c ps step).
  assert (Hrho : fold_left (density_step s1 p) ps 0 = rho).
  { unfold s1; rewrite (isolated_density c ps i p Hh Hp Halone step). reflexivity. }
  assert (Hrho_pos : 0 < rho).
  { destruct (make_simulator_kernel_pos c ps d Hh) as [H2 H6].
    apply Rmult_lt_0_compat; [assumption |].
    now apply poly6_kernel_zero_pos. }
  (* density stage *)
  pose proof (compute_density_pressure_particles s1) as Hdens.
  set (ps1 := particles (_compute_density_pressure s1)) in *.
  assert (Hs1 : _compute_density_pressure s1 = make_simulator c ps1 step) by reflexivity.
  assert (Hp1 : ps1 !! i =
                Some (set_density_pressure p rho
                        (Config.gas_constant c * (rho - Config.rest_density c)))).
  { rewrite Hdens, list_lookup_imap; cbn [particles s1 make_simulator].
    rewrite Hp; simpl; unfold density_body.
    cbn [gas_constant rest_density make_simulator].
    fold s1; now rewrite Hrho. }
  assert (Hsame : Forall2 same_position ps ps1).
  { apply Forall2_same_length_lookup_2.
    - now rewrite Hdens, length_imap.
    - intros j x y Hx Hy.
      rewrite Hdens, list_lookup_imap in Hy; cbn [particles s1 make_simulator] in Hy.
      rewrite Hx in Hy; injection Hy as <-; reflexivity. }
  (* force stage *)
  rewrite Hs1.
  pose proof (compute_forces_particles (make_simulator c ps1 step)) as Hforce.
  set (ps2 := particles (_compute_forces (make_simulator c ps1 step))) in *.
  assert (Hs2 : _compute_forces (make_simulator c ps1 step) = make_simulator c ps2 step)
    by reflexivity.
  assert (Hp2 : ps2 !! i =
                Some (set_force
                        (set_density_pressure p rho
                           (Config.gas_constant c * (rho - Config.rest_density c)))
                        (vmul (Config.gravity c) rho))).
  { rewrite Hforce, list_lookup_imap; cbn [particles make_simulator].
    rewrite Hp1; simpl; unfold force_body.
    rewrite (isolated_force_loop c ps i p Halone step ps1) by (reflexivity || assumption).
    cbn [fst snd]; now rewrite vadd_zero_l. }
  (* integration *)
  rewrite Hs2, integrate_particles, list_lookup_imap; cbn [particles make_simulator].
  rewrite Hp2; simpl; unfold integrate_body.
  cbn [force density velocity position set_force set_density_pressure dt damping
       make_simulator].
  assert (Hacc : vdiv (vmul (Config.gravity c) rho) rho = Config.gravity c).
  { destruct (Config.gravity c) as [gx gy gz]; unfold vdiv, vmul; simpl.
    f_equal; field; lra. }
  rewrite Hacc.
  reflexivity.
Qed.

(** Free fall of the single particle of [single_config] in its first
    tick. *)
Lemma isolated_particle_update_witness :
  let p := Particle_init (Vec3 (-0.02) 0.48 (-0.02)) in
  let s := make_simulator single_config [p] 0.016 in
  exists q,
    particles (update s None) !! 0%nat = Some q /\
    velocity q = Vec3 ((0 + 0 * 0.016) * 0.95) ((0 + -9.8 * 0.016) * 0.95)
                      ((0 + 0 * 0.016) * 0.95).
Proof.
  intros p s.
  assert (Hh : 0 < Config.smoothing_radius single_config) by (simpl; lra).
  assert (Hm : 0 < mass p) by (simpl; lra).
  assert (Hp : [p] !! 0%nat = Some p) by reflexivity.
  assert (Halone : forall j q, [p] !! j = Some q -> j <> 0%nat ->
            Config.smoothing_radius single_config <=
            norm (vsub (position p) (position q))).
  { intros [| j] q Hq Hj; [contradiction | destruct j; discriminate]. }
  pose proof (isolated_particle_update single_config [p] 0.016 None 0 p
                Hh Hm Hp Halone) as Hupd.
  cbv zeta in Hupd.
  rewrite handle_boundaries_inside in Hupd by (intros [ | | ]; simpl; lra).
  eexists; split; [exact Hupd | reflexivity].
Defined.

(** ** The kernels *)

Lemma make_simulator_constants (c : Config.FluidConfig) (ps : list Particle) (d : R) :
  0 < Config.smoothing_radius c ->
  spiky_constant (make_simulator c ps d) < 0 /\
  0 < viscosity_constant (make_simulator c ps d).
Proof.
  intros Hh; cbn [spiky_constant viscosity_constant make_simulator].
  pose proof PI_RGT_0.
  assert (H6 : 0 < Config.smoothing_radius c ^ 6) by (apply pow_lt; assumption).
  assert (Hden : 0 < PI * Config.smoothing_radius c ^ 6)
    by (apply Rmult_lt_0_compat; [lra | assumption]).
  assert (Hinv : 0 < / (PI * Config.smoothing_radius c ^ 6))
    by now apply Rinv_0_lt_compat.
  unfold Rdiv; split; nra.
Qed.

(** X10: on a simulator built with a positive smoothing radius the
    density kernel is non-negative, vanishes from [h2] on and never
    grows with the squared distance; the viscosity kernel is
    non-negative and vanishes from [h] on. *)
Theorem kernels_compact_support (c : Config.FluidConfig) (ps : list Particle) (d : R) :
  0 < Config.smoothing_radius c ->
  let s := make_simulator c ps d in
  (forall r2, 0 <= _poly6_kernel s r2) /\
  (forall r2, h2 s <= r2 -> _poly6_kernel s r2 = 0) /\
  (forall r2 r2', r2 <= r2' -> _poly6_kernel s r2' <= _poly6_kernel s r2) /\
  (forall r, 0 <= _viscosity_laplacian s r) /\
  (forall r, h s <= r -> _viscosity_laplacian s r = 0).
Proof.
  intros Hh s.
  destruct (make_simulator_kernel_pos c ps d Hh) as [H2 H6].
  destruct (make_simulator_constants c ps d Hh) as [_ Hv].
  fold s in H2, H6, Hv.
  split; [| split; [| split; [| split]]].
  - now apply poly6_kernel_nonneg.
  - intros r2 Hr; unfold _poly6_kernel; real_cases; solve [reflexivity | lra].
  - intros r2 r2' Hle.
    pose proof (poly6_kernel_nonneg s H6 r2) as Hpos.
    unfold _poly6_kernel in *.
    destruct (Rge_dec r2' (h2 s)); [assumption |].
    destruct (Rge_dec r2 (h2 s)); [lra |].
    set (a := h2 s - r2) in *; set (b := h2 s - r2') in *.
    assert (Hb : 0 < b) by (unfold b; lra).
    assert (Hab : b <= a) by (unfold a, b; lra).
    assert (b * b <= a * a) by nra.
    assert (b * b * b <= a * a * a) by (apply Rmult_le_compat; nra).
    rewrite !Rmult_assoc; apply Rmult_le_compat_l; lra.
  - intros r; unfold _viscosity_laplacian; real_cases; [lra |].
    apply Rmult_le_pos; lra.
  - intros r Hr; unfold _viscosity_laplacian; real_cases; solve [reflexivity | lra].
Qed.

(** The default simulator. *)
Lemma kernels_compact_support_witness :
  0 < Config.smoothing_radius FLUID_CONFIG /\
  forall r2, 0 <= _poly6_kernel (make_simulator FLUID_CONFIG [] 0.016) r2.
Proof.
  assert (Hh : 0 < Config.smoothing_radius FLUID_CONFIG) by (simpl; lra).
  split; [exact Hh |].
  exact (proj1 (kernels_compact_support FLUID_CONFIG [] 0.016 Hh)).
Defined.

(** X11: inside its support, between the epsilon and the smoothing
    radius, the pressure-gradient kernel is a strictly negative multiple
    of the displacement: it points from the particle towards the
    neighbour. *)
Theorem spiky_gradient_direction (c : Config.FluidConfig) (ps : list Particle)
    (d : R) (r_vec : vec3) (r : R) :
  0 < Config.smoothing_radius c ->
  1e-6 <= r < Config.smoothing_radius c ->
  exists k,
    k < 0 /\
    _spiky_gradient (make_simulator c ps d) r_vec r = vscale k r_vec.
Proof.
  intros Hh [Hlo Hhi].
  destruct (make_simulator_constants c ps d Hh) as [Hs _].
  set (s := make_simulator c ps d) in *.
  exists (spiky_constant s * (h s - r) * (h s - r) * / r); split.
  - assert (0 < / r) by (apply Rinv_0_lt_compat; lra).
    assert (0 < h s - r) by (simpl; lra).
    assert (0 < (h s - r) * (h s - r)) by nra.
    assert (spiky_constant s * ((h s - r) * (h s - r)) < 0) by nra.
    rewrite (Rmult_assoc (spiky_constant s)).
    nra.
  - rewrite spiky_gradient_inside by (simpl; lra).
    destruct r_vec as [x y z]; unfold vscale, vdiv; simpl.
    f_equal; unfold Rdiv; ring.
Qed.

(** Half the smoothing radius on the default simulator. *)
Lemma spiky_gradient_direction_witness :
  0 < Config.smoothing_radius FLUID_CONFIG /\
  1e-6 <= 0.025 < Config.smoothing_radius FLUID_CONFIG /\
  exists k,
    k < 0 /\
    _spiky_gradient (make_simulator FLUID_CONFIG [] 0.016) (Vec3 0.025 0 0) 0.025 =
    vscale k (Vec3 0.025 0 0).
Proof.
  assert (Hh : 0 < Config.smoothing_radius FLUID_CONFIG) by (simpl; lra).
  assert (Hr : 1e-6 <= 0.025 < Config.smoothing_radius FLUID_CONFIG) by (simpl; lra).
  split; [exact Hh | split; [exact Hr |]].
  exact (spiky_gradient_direction FLUID_CONFIG [] 0.016 (Vec3 0.025 0 0) 0.025 Hh Hr).
Defined.

(** * helpers.py *)

(** ** [clamp], [lerp] and [smooth_step] *)

(** X12: with ordered bounds [clamp] returns a value inside them, and
    the value itself when it already is inside; with the bounds given
    the wrong way round it returns [min_val] whatever the value. *)
Theorem clamp_spec (value min_val max_val : R) :
  (min_val <= max_val ->
   min_val <= clamp value min_val max_val <= max_val /\
   (min_val <= value <= max_val -> clamp value min_val max_val = value) /\
   (value <= min_val -> clamp value min_val max_val = min_val) /\
   (max_val <= value -> clamp value min_val max_val = max_val)) /\
  (max_val < min_val -> clamp value min_val max_val = min_val).
Proof.
  unfold clamp, py_max, py_min; split; [intros Hb; repeat split |]; intros;
    destruct (Rlt_dec value max_val); real_cases; lra.
Qed.



Lemma clamp_unit_range (q : R) : 0 <= clamp q 0 1 <= 1.
Proof.
  unfold clamp, py_max, py_min; destruct (Rlt_dec q 1); real_cases; lra.
Qed.

Lemma smooth_poly_mono (t t' : R) :
  0 <= t -> t <= t' -> t' <= 1 ->
  t * t * (3 - 2 * t) <= t' * t' * (3 - 2 * t').
Proof.
  intros H0 Hle H1.
  assert (Hfac : t' * t' * (3 - 2 * t') - t * t * (3 - 2 * t) =
                 (t' - t) * (3 * (t + t') - 2 * (t * t + t * t' + t' * t'))) by ring.
  assert (Hpos : 0 <= 3 * (t + t') - 2 * (t * t + t * t' + t' * t')) by nra.
  assert (0 <= (t' - t) * (3 * (t + t') - 2 * (t * t + t * t' + t' * t')))
    by (apply Rmult_le_pos; lra).
  lra.
Qed.

Lemma clamp_mono (q q' : R) : q <= q' -> clamp q 0 1 <= clamp q' 0 1.
Proof.
  intros Hq; unfold clamp, py_max, py_min.
  destruct (Rlt_dec q 1), (Rlt_dec q' 1); real_cases; lra.
Qed.

Lemma clamp_unit_low (q : R) : q <= 0 -> clamp q 0 1 = 0.
Proof.
  intros Hq; unfold clamp, py_max, py_min.
  destruct (Rlt_dec q 1); real_cases; lra.
Qed.

Lemma clamp_unit_high (q : R) : 1 <= q -> clamp q 0 1 = 1.
Proof.
  intros Hq; unfold clamp, py_max, py_min.
  destruct (Rlt_dec q 1); real_cases; lra.
Qed.

(** X14: [smooth_step] raises [ZeroDivisionError] exactly when the two
    edges coincide.  Otherwise it returns a value in [0, 1]; with
    [edge0 < edge1] that value is 0 up to [edge0] and 1 from [edge1]
    on. *)
Theorem smooth_step_spec (edge0 edge1 x : R) :
  (edge0 = edge1 -> smooth_step edge0 edge1 x = Raise ZeroDivisionError) /\
  (edge0 <> edge1 -> exists y, smooth_step edge0 edge1 x = Ok y /\ 0 <= y <= 1) /\
  (edge0 < edge1 -> x <= edge0 -> smooth_step edge0 edge1 x = Ok 0) /\
  (edge0 < edge1 -> edge1 <= x -> smooth_step edge0 edge1 x = Ok 1).
Proof.
  unfold smooth_step, py_div; repeat split.
  - intros ->; destruct (Req_dec_T (edge1 - edge1) 0) as [| Hn]; [reflexivity |].
    exfalso; apply Hn; ring.
  - intros Hne; destruct (Req_dec_T (edge1 - edge0) 0); [exfalso; lra |].
    cbn [bind]; eexists; split; [reflexivity |].
    pose proof (clamp_unit_range ((x - edge0) / (edge1 - edge0))) as [H0 H1].
    set (t := clamp ((x - edge0) / (edge1 - edge0)) 0 1) in *.
    pose proof (smooth_poly_mono 0 t (Rle_refl 0) H0 H1).
    pose proof (smooth_poly_mono t 1 H0 H1 (Rle_refl 1)).
    lra.
  - intros Hlt Hx; destruct (Req_dec_T (edge1 - edge0) 0); [exfalso; lra |].
    cbn [bind].
    assert (Hq : (x - edge0) / (edge1 - edge0) <= 0).
    { assert (0 < / (edge1 - edge0)) by (apply Rinv_0_lt_compat; lra).
      unfold Rdiv; nra. }
    rewrite (clamp_unit_low _ Hq); f_equal; ring.
  - intros Hlt Hx; destruct (Req_dec_T (edge1 - edge0) 0); [exfalso; lra |].
    cbn [bind].
    assert (Hq : 1 <= (x - edge0) / (edge1 - edge0)).
    { assert (0 < / (edge1 - edge0)) by (apply Rinv_0_lt_compat; lra).
      assert ((edge1 - edge0) * / (edge1 - edge0) = 1) by (apply Rinv_r; lra).
      unfold Rdiv; nra. }
    rewrite (clamp_unit_high _ Hq); f_equal; ring.
Qed.

(** X15: with [edge0 < edge1], [smooth_step] never decreases when its
    argument grows. *)
Theorem smooth_step_monotone (edge0 edge1 x x' : R) :
  edge0 < edge1 -> x <= x' ->
  exists y y',
    smooth_step edge0 edge1 x = Ok y /\
    smooth_step edge0 edge1 x' = Ok y' /\
    y <= y'.
Proof.
  intros Hlt Hx; unfold smooth_step, py_div.
  destruct (Req_dec_T (edge1 - edge0) 0); [exfalso; lra |].
  cbn [bind]; do 2 eexists; split; [reflexivity | split; [reflexivity |]].
  assert (Hq : (x - edge0) / (edge1 - edge0) <= (x' - edge0) / (edge1 - edge0)).
  { assert (0 < / (edge1 - edge0)) by (apply Rinv_0_lt_compat; lra).
    unfold Rdiv; nra. }
  pose proof (clamp_mono _ _ Hq).
  pose proof (clamp_unit_range ((x - edge0) / (edge1 - edge0))).
  pose proof (clamp_unit_range ((x' - edge0) / (edge1 - edge0))).
  apply smooth_poly_mono; lra.
Qed.

Lemma smooth_step_monotone_witness :
  0 < 2 /\ 0.5 <= 1.5 /\
  exists y y',
    smooth_step 0 2 0.5 = Ok y /\ smooth_step 0 2 1.5 = Ok y' /\ y <= y'.
Proof.
  assert (H1 : 0 < 2) by lra.
  assert (H2 : 0.5 <= 1.5) by lra.
  split; [exact H1 | split; [exact H2 |]].
  exact (smooth_step_monotone 0 2 0.5 1.5 H1 H2).
Defined.

(** ** [normalize_vector] *)






(** ** class FPSCounter *)

Lemma deltas_snoc (clock : list R) (start now : R) :
  deltas start (clock ++ [now]) =
  deltas start clock ++ [now - last_reading start clock].
Proof.
  revert start; induction clock as [| t clock IH]; intros start.
  - reflexivity.
  - assert (E : last_reading t clock = last_reading start (t :: clock)).
    { unfold last_reading; destruct clock as [| t' clock]; [reflexivity |].
      rewrite last_cons_cons.
      destruct (last (t' :: clock)) eqn:Hl; [reflexivity |].
      apply last_None in Hl; discriminate. }
    cbn [app deltas]; rewrite IH, E; reflexivity.
Qed.

Lemma deltas_length (clock : list R) (start : R) :
  length (deltas start clock) = length clock.
Proof.
  revert start; induction clock as [| t clock IH]; intros start; simpl;
    [reflexivity | now rewrite IH].
Qed.

Lemma last_reading_snoc (clock : list R) (start now : R) :
  last_reading start (clock ++ [now]) = now.
Proof. unfold last_reading; now rewrite last_snoc. Qed.

Lemma tail_drop_snoc (l : list R) (m : nat) (x : R) :
  (m <= length l)%nat -> tail (drop m l ++ [x]) = drop (S m) (l ++ [x]).
Proof.
  revert m; induction l as [| y l IH]; intros m Hm.
  - simpl in Hm; replace m with 0%nat by lia; reflexivity.
  - destruct m as [| m]; [reflexivity |].
    simpl in Hm; cbn [drop app].
    rewrite IH by lia; reflexivity.
Qed.

(** The state of the counter after any run of updates. *)
Lemma fps_updates_state (w : Z) (start : R) (clock : list R) :
  let c := FPSCounter.updates (FPSCounter.init w start) clock in
  FPSCounter.window_size c = w /\
  FPSCounter.last_time c = last_reading start clock /\
  FPSCounter.frame_times c =
  drop (length clock - Z.to_nat w) (deltas start clock).
Proof.
  induction clock as [| now clock IH] using rev_ind; cbv zeta.
  - repeat split.
  - unfold FPSCounter.updates in *; rewrite fold_left_app; cbn [fold_left].
    set (c := fold_left (λ c now, (FPSCounter.update c now).1) clock
                        (FPSCounter.init w start)) in *.
    destruct IH as (Hw & Hlast & Hft).
    set (appended := FPSCounter.frame_times c ++ [now - FPSCounter.last_time c]).
    assert (Hstate :
      (FPSCounter.update c now).1 =
      {| FPSCounter.window_size := w;
         FPSCounter.frame_times :=
           if (Z.of_nat (length appended) >? w)%Z then tail appended else appended;
         FPSCounter.last_time := now |}).
    { unfold FPSCounter.update; rewrite Hw; fold appended.
      destruct (0 <? length _)%nat; reflexivity. }
    unfold appended in Hstate.
    rewrite Hstate; cbn [FPSCounter.window_size FPSCounter.last_time
                         FPSCounter.frame_times].
    split; [reflexivity | split; [now rewrite last_reading_snoc |]].
    rewrite Hft, Hlast, deltas_snoc, length_app, length_app, length_drop,
      deltas_length; cbn [length].
    pose proof (deltas_length clock start) as Hlen.
    destruct (Z.gtb_spec
                (Z.of_nat (length clock - (length clock - Z.to_nat w) + 1)) w)
      as [Hgt | Hle].
    + rewrite tail_drop_snoc by lia.
      f_equal; lia.
    + replace (length clock - Z.to_nat w)%nat with 0%nat by lia.
      replace (length clock + 1 - Z.to_nat w)%nat with 0%nat by lia.
      reflexivity.
Qed.

Lemma fps_window_length (w : Z) (start : R) (clock : list R) :
  length (FPSCounter.frame_times
            (FPSCounter.updates (FPSCounter.init w start) clock)) =
  (length clock `min` Z.to_nat w)%nat.
Proof.
  destruct (fps_updates_state w start clock) as (_ & _ & Hft).
  rewrite Hft, length_drop, deltas_length; lia.
Qed.

(** X17: the FPS counter keeps a sliding window.  After any run of
    [update] calls its list holds the most recent [window_size] frame
    intervals (all of them while there are fewer, none when the window
    size is zero or negative), [last_time] is the last clock reading,
    and [get_frame_time] is the last interval kept, or 0 without one. *)
Theorem fps_window (w : Z) (start : R) (clock : list R) :
  let c := FPSCounter.updates (FPSCounter.init w start) clock in
  FPSCounter.frame_times c =
  drop (length clock - Z.to_nat w) (deltas start clock) /\
  length (FPSCounter.frame_times c) = (length clock `min` Z.to_nat w)%nat /\
  FPSCounter.last_time c = last_reading start clock /\
  FPSCounter.get_frame_time c =
  match last (deltas start clock) with
  | Some delta => if (0 <? w)%Z then delta else 0
  | None => 0
  end.
Proof.
  cbv zeta.
  destruct (fps_updates_state w start clock) as (Hw & Hlast & Hft).
  split; [exact Hft | split; [| split; [exact Hlast |]]].
  - rewrite Hft, length_drop, deltas_length; lia.
  - unfold FPSCounter.get_frame_time; rewrite Hft.
    pose proof (deltas_length clock start) as Hlen.
    destruct (Z.ltb_spec 0 w) as [Hpos | Hneg].
    + destruct (deltas start clock) as [| x l] eqn:Hd using rev_ind.
      * now rewrite drop_nil.
      * clear IHl.
        rewrite length_app in Hlen; cbn [length] in Hlen.
        rewrite drop_app_le by lia.
        now rewrite !last_snoc.
    + replace (Z.to_nat w) with 0%nat by lia.
      rewrite Nat.sub_0_r, <- Hlen, drop_all.
      now destruct (last (deltas start clock)).
Qed.

(** The FPS [update] returns is computed from the list it leaves. *)
Lemma fps_of_update (c : FPSCounter.t) (now : R) :
  let kept := FPSCounter.frame_times (FPSCounter.update c now).1 in
  (FPSCounter.update c now).2 =
  if (0 <? length kept)%nat then
    if Rgt_dec (py_sum kept / INR (length kept)) 0
    then 1 / (py_sum kept / INR (length kept)) else 0
  else 0.
Proof.
  cbv zeta; unfold FPSCounter.update.
  set (appended := FPSCounter.frame_times c ++ [now - FPSCounter.last_time c]).
  set (kept := if (Z.of_nat (length appended) >? FPSCounter.window_size c)%Z
               then tail appended else appended).
  destruct (0 <? length kept)%nat eqn:Hk; cbn [fst snd FPSCounter.frame_times];
    rewrite Hk; reflexivity.
Qed.

Lemma py_sum_constant (l : list R) (delta : R) :
  Forall (fun x => x = delta) l -> py_sum l = INR (length l) * delta.
Proof.
  intros Hl; unfold py_sum.
  assert (Hacc : forall acc, fold_left Rplus l acc = acc + INR (length l) * delta).
  { induction Hl as [| x l -> _ IH]; intros acc; [simpl; ring |].
    cbn [fold_left length]; rewrite IH, S_INR; ring. }
  rewrite Hacc; ring.
Qed.

Lemma steady_snoc (start delta : R) (k : nat) :
  steady start delta (S k) = steady start delta k ++ [start + INR (S k) * delta].
Proof. unfold steady; now rewrite seq_S, fmap_app. Qed.

Lemma steady_last (start delta : R) (k : nat) :
  last_reading start (steady start delta k) = start + INR k * delta.
Proof.
  destruct k as [| k].
  - unfold last_reading; simpl; ring.
  - now rewrite steady_snoc, last_reading_snoc.
Qed.

Lemma steady_deltas (start delta : R) (k : nat) :
  Forall (fun x => x = delta) (deltas start (steady start delta k)).
Proof.
  induction k as [| k IH]; [constructor |].
  rewrite steady_snoc, deltas_snoc, steady_last.
  apply Forall_app; split; [exact IH |].
  constructor; [rewrite S_INR; ring | constructor].
Qed.

(** X18: the FPS returned by [update] is never negative; a counter with
    a window size of zero or less always reports 0; and on a clock that
    advances by the same positive interval from frame to frame a counter
    with a window of at least one frame reports exactly the inverse of
    the interval. *)
Theorem fps_value (w : Z) (start : R) :
  (forall (c : FPSCounter.t) (now : R), 0 <= (FPSCounter.update c now).2) /\
  (forall (clock : list R) (now : R),
     (w <= 0)%Z ->
     (FPSCounter.update (FPSCounter.updates (FPSCounter.init w start) clock) now).2 = 0) /\
  (forall (delta : R) (k : nat),
     (1 <= w)%Z -> 0 < delta ->
     (FPSCounter.update
        (FPSCounter.updates (FPSCounter.init w start) (steady start delta k))
        (start + INR (S k) * delta)).2 = 1 / delta).
Proof.
  split; [| split].
  - intros c now; rewrite fps_of_update; cbv zeta.
    destruct (0 <? _)%nat; [| lra].
    destruct (Rgt_dec _ _) as [Hpos |]; [| lra].
    left; apply Rdiv_lt_0_compat; lra.
  - intros clock now Hw; rewrite fps_of_update; cbv zeta.
    change ((FPSCounter.update
               (FPSCounter.updates (FPSCounter.init w start) clock) now).1)
      with (fold_left (fun c t => (FPSCounter.update c t).1) [now]
              (FPSCounter.updates (FPSCounter.init w start) clock)).
    unfold FPSCounter.updates; rewrite <- fold_left_app.
    pose proof (fps_window_length w start (clock ++ [now])) as Hlen.
    unfold FPSCounter.updates in Hlen; rewrite Hlen.
    replace (Z.to_nat w) with 0%nat by lia.
    now rewrite Nat.min_0_r.
  - intros delta k Hw Hd; rewrite fps_of_update; cbv zeta.
    change ((FPSCounter.update
               (FPSCounter.updates (FPSCounter.init w start) (steady start delta k))
               (start + INR (S k) * delta)).1)
      with (fold_left (fun c t => (FPSCounter.update c t).1)
              [start + INR (S k) * delta]
              (FPSCounter.updates (FPSCounter.init w start) (steady start delta k))).
    unfold FPSCounter.updates; rewrite <- fold_left_app, <- steady_snoc.
    destruct (fps_updates_state w start (steady start delta (S k)))
      as (_ & _ & Hft).
    pose proof (fps_window_length w start (steady start delta (S k))) as Hlen.
    unfold FPSCounter.updates in Hft, Hlen.
    set (kept := FPSCounter.frame_times _) in *.
    assert (Hall : Forall (fun x => x = delta) kept).
    { rewrite Hft; apply Forall_drop, steady_deltas. }
    assert (Hpos : (0 < length kept)%nat).
    { rewrite Hlen; unfold steady; rewrite length_fmap, length_seq; lia. }
    rewrite (py_sum_constant kept delta Hall).
    destruct (Nat.ltb_spec 0 (length kept)); [| lia].
    assert (Hn : 0 < INR (length kept)) by (apply lt_0_INR; lia).
    replace (INR (length kept) * delta / INR (length kept)) with delta
      by (field; lra).
    destruct (Rgt_dec delta 0); [reflexivity | lra].
Qed.

(** ** class PerformanceMonitor *)

Lemma increment_counter_lookup (m : PerformanceMonitor.t) (n n' : string) (a : Z) :
  PerformanceMonitor.counters (PerformanceMonitor.increment_counter m n a) !! n' =
  if decide (n = n')
  then Some (default 0%Z (PerformanceMonitor.counters m !! n) + a)%Z
  else PerformanceMonitor.counters m !! n'.
Proof.
  unfold PerformanceMonitor.increment_counter; cbn [PerformanceMonitor.counters].
  destruct (decide (n = n')) as [<- | Hne].
  - rewrite lookup_alter_eq.
    destruct (PerformanceMonitor.counters m !! n) as [v |] eqn:Hv.
    + now rewrite Hv.
    + now rewrite lookup_insert_eq.
  - rewrite lookup_alter_ne by assumption.
    destruct (PerformanceMonitor.counters m !! n); [reflexivity |].
    now rewrite lookup_insert_ne.
Qed.

(** X19: counters add up.  After any run of [increment_counter] calls a
    counter exists exactly when it existed before or was named by a
    call, and its value is its earlier value (0 when it did not exist)
    plus the sum of the amounts given to it; the timers are untouched. *)
Theorem counters_accumulate (calls : list (string * Z)) (m : PerformanceMonitor.t)
    (name : string) :
  default 0%Z (PerformanceMonitor.counters (increments m calls) !! name) =
  (default 0%Z (PerformanceMonitor.counters m !! name) + total_for name calls)%Z /\
  (is_Some (PerformanceMonitor.counters (increments m calls) !! name) <->
   is_Some (PerformanceMonitor.counters m !! name) \/ In name (map fst calls)) /\
  PerformanceMonitor.timers (increments m calls) = PerformanceMonitor.timers m.
Proof.
  revert m; induction calls as [| [n a] calls IH]; intros m.
  - simpl; repeat split; [lia | tauto | intros [? | []]; assumption].
  - unfold increments in *; cbn [fold_left fst snd total_for map].
    destruct (IH (PerformanceMonitor.increment_counter m n a)) as (Hval & Hdom & Htim).
    rewrite Hval, Htim; clear Hval Htim.
    rewrite increment_counter_lookup in *.
    split; [| split; [| reflexivity]].
    + destruct (decide (n = name)) as [-> |]; simpl; lia.
    + rewrite Hdom; destruct (decide (n = name)) as [-> | Hne]; simpl.
      * split; [intros _; right; now left | intros _; left; eauto].
      * split; [intros [? | ?]; [now left | right; now right] |].
        intros [? | [? | ?]]; [now left | contradiction | now right].
Qed.

(** X20: timers.  [end_timer] on a started timer returns the time since
    the latest [start_timer] of that name, and 0 for a name that was
    never started or after [reset]; starting or counting under another
    name does not disturb it. *)
Theorem timers_round_trip (m : PerformanceMonitor.t) (name other : string)
    (started now : R) (amount : Z) :
  PerformanceMonitor.end_timer
    (PerformanceMonitor.start_timer m name started) name now = now - started /\
  PerformanceMonitor.end_timer PerformanceMonitor.init name now = 0 /\
  PerformanceMonitor.end_timer (PerformanceMonitor.reset m) name now = 0 /\
  (name <> other ->
   PerformanceMonitor.end_timer
     (PerformanceMonitor.start_timer m other started) name now =
   PerformanceMonitor.end_timer m name now) /\
  PerformanceMonitor.end_timer
    (PerformanceMonitor.increment_counter m other amount) name now =
  PerformanceMonitor.end_timer m name now /\
  PerformanceMonitor.get_stats (PerformanceMonitor.reset m) = (∅, ∅).
Proof.
  unfold PerformanceMonitor.end_timer, PerformanceMonitor.start_timer,
    PerformanceMonitor.reset, PerformanceMonitor.init, PerformanceMonitor.get_stats;
    cbn [PerformanceMonitor.timers PerformanceMonitor.counters].
  split; [now rewrite lookup_insert_eq |].
  split; [now rewrite lookup_empty |].
  split; [now rewrite lookup_empty |].
  split; [intros Hne; now rewrite lookup_insert_ne by congruence |].
  split; reflexivity.
Qed.

(** ** class SpatialHashGrid: what a query returns *)

Lemma fold_left_keeps_In {A B : Type} (f : A -> B -> A) (P : A -> Prop) (l : list B) :
  (forall acc x, In x l -> P acc -> P (f acc x)) ->
  forall acc, P acc -> P (fold_left f l acc).
Proof.
  induction l as [| x l IH]; intros Hkeep acc Hacc; simpl; [assumption |].
  apply IH.
  - intros acc' y Hy; apply Hkeep; now right.
  - apply Hkeep; [now left | assumption].
Qed.

Lemma insert_stored_inv (g g' : SpatialHashGrid.t) (id : Z) (position : vec3)
    (c : SpatialHashGrid.cell) (id' : Z) :
  SpatialHashGrid.cell_size g <> 0 ->
  SpatialHashGrid.insert g id position = Ok g' ->
  stored g' c id' ->
  stored g c id' \/
  (id' = id /\ c = cell_of (SpatialHashGrid.cell_size g) position).
Proof.
  intros Hc Hins (bucket & Hb & Hin).
  unfold SpatialHashGrid.insert in Hins.
  rewrite hash_position_ok in Hins by assumption; cbn [bind] in Hins.
  injection Hins as <-; cbn [SpatialHashGrid.grid] in Hb.
  set (c0 := cell_of (SpatialHashGrid.cell_size g) position) in *.
  destruct (decide (c0 = c)) as [<- | Hne].
  - rewrite lookup_alter_eq in Hb.
    destruct (SpatialHashGrid.grid g !! c0) as [old |] eqn:Hold.
    + rewrite Hold in Hb; injection Hb as <-.
      apply in_app_or in Hin as [Hin | [<- | []]];
        [left; exists old; now split | right; now split].
    + rewrite lookup_insert_eq in Hb; injection Hb as <-.
      destruct Hin as [<- | []]; right; now split.
  - rewrite lookup_alter_ne in Hb by assumption.
    left; exists bucket; split; [| assumption].
    destruct (SpatialHashGrid.grid g !! c0); [assumption |].
    now rewrite lookup_insert_ne in Hb.
Qed.

Lemma insert_all_stored_inv (items : list (Z * vec3)) :
  forall g g' c id,
    SpatialHashGrid.cell_size g <> 0 ->
    SpatialHashGrid.insert_all g items = Ok g' ->
    stored g' c id ->
    stored g c id \/
    exists p, In (id, p) items /\ c = cell_of (SpatialHashGrid.cell_size g) p.
Proof.
  induction items as [| [id0 p0] items IH]; intros g g' c id Hc Hins Hst; simpl in Hins.
  - injection Hins as <-; now left.
  - destruct (insert_spec g id0 p0 Hc) as (g1 & Hg1 & Hc1 & _).
    rewrite Hg1 in Hins; cbn [bind] in Hins.
    destruct (IH g1 g' c id) as [Hold | (p & Hin & ->)]; try assumption; [congruence | |].
    + destruct (insert_stored_inv g g1 id0 p0 c id Hc Hg1 Hold) as [? | [-> ->]];
        [now left |].
      right; exists p0; split; [now left | reflexivity].
    + right; exists p; split; [now right | now rewrite Hc1].
Qed.

Lemma visit_sound (g : SpatialHashGrid.t) (cc : SpatialHashGrid.cell)
    (dx dy dz id : Z) (acc : list Z) :
  In id (SpatialHashGrid.visit g cc dx dy dz acc) ->
  In id acc \/ stored g (cc.1.1 + dx, cc.1.2 + dy, cc.2 + dz)%Z id.
Proof.
  unfold SpatialHashGrid.visit.
  destruct (SpatialHashGrid.grid g !! _) as [bucket |] eqn:Hb; [| now left].
  intros Hin; apply in_app_or in Hin as [? | ?]; [now left |].
  right; exists bucket; now split.
Qed.

(** X21: what a query returns, exactly.  On a grid with a non-zero cell
    size that was cleared and then filled by a batch of insertions,
    [query_neighbors] returns an id if and only if the batch holds it at
    a position whose cell is within [cell_radius] of the query cell on
    every axis: nothing from before the [clear], nothing that was never
    inserted. *)
Theorem query_exact (g0 : SpatialHashGrid.t) (items : list (Z * vec3))
    (position : vec3) (radius : R) :
  SpatialHashGrid.cell_size g0 <> 0 ->
  let cs := SpatialHashGrid.cell_size g0 in
  exists g found,
    SpatialHashGrid.insert_all (SpatialHashGrid.clear g0) items = Ok g /\
    SpatialHashGrid.query_neighbors g position radius = Ok found /\
    forall id,
      In id found <->
      exists p,
        In (id, p) items /\
        near_cells (py_int (np_ceil (radius / cs))) (cell_of cs p) (cell_of cs position).
Proof.
  intros Hc cs.
  destruct (insert_all_spec items (SpatialHashGrid.clear g0))
    as (g & Hins & Hsize & Hitems & _); [exact Hc |].
  cbn [SpatialHashGrid.cell_size SpatialHashGrid.clear] in Hsize, Hitems.
  fold cs in Hsize, Hitems.
  destruct (query_spec g position radius) as (found & Hq & Hfound);
    [rewrite Hsize; exact Hc |].
  exists g, found; split; [exact Hins | split; [exact Hq |]].
  rewrite Hsize in Hfound.
  intros id; split.
  - intros Hin.
    assert (Hsound : exists c, stored g c id /\
              near_cells (py_int (np_ceil (radius / cs))) c (cell_of cs position)).
    { unfold SpatialHashGrid.query_neighbors, py_div in Hq.
      rewrite Hsize in Hq.
      destruct (Req_dec_T cs 0); [contradiction |].
      rewrite hash_position_ok in Hq by congruence; cbn [bind] in Hq.
      rewrite Hsize in Hq; injection Hq as <-.
      set (cr := py_int (np_ceil (radius / cs))) in *.
      set (cc := cell_of cs position) in *.
      revert Hin.
      apply (fold_left_keeps_In _
               (fun acc => In id acc ->
                           exists c, stored g c id /\ near_cells cr c cc));
        [| intros []].
      intros acc dx Hdx Hacc.
      apply fold_left_keeps_In; [| exact Hacc].
      intros acc' dy Hdy Hacc'.
      apply fold_left_keeps_In; [| exact Hacc'].
      intros acc'' dz Hdz Hacc'' Hv.
      apply visit_sound in Hv as [Hold | Hst]; [now apply Hacc'' |].
      apply range2_In in Hdx, Hdy, Hdz.
      eexists; split; [exact Hst |].
      unfold near_cells; cbn [fst snd]; lia. }
    destruct Hsound as (c & Hst & Hnear).
    destruct (insert_all_stored_inv items (SpatialHashGrid.clear g0) g c id Hc Hins Hst)
      as [(bucket & Hb & _) | (p & Hp & ->)].
    + cbn [SpatialHashGrid.grid SpatialHashGrid.clear] in Hb.
      now rewrite lookup_empty in Hb.
    + exists p; split; [exact Hp | exact Hnear].
  - intros (p & Hp & Hx & Hy & Hz).
    apply (Hfound (cell_of cs p) id); [now apply Hitems | exact Hx | exact Hy | exact Hz].
Qed.

(** A grid that held one particle, cleared and refilled with another. *)
Lemma query_exact_witness :
  exists g0,
    SpatialHashGrid.insert (SpatialHashGrid.init 0.1) 7 (Vec3 0 0 0) = Ok g0 /\
    SpatialHashGrid.cell_size g0 <> 0 /\
    exists g found,
      SpatialHashGrid.insert_all (SpatialHashGrid.clear g0) [(1%Z, Vec3 0.5 0 0)] = Ok g /\
      SpatialHashGrid.query_neighbors g (Vec3 0 0 0) 0.05 = Ok found /\
      forall id,
        In id found <->
        exists p,
          In (id, p) [(1%Z, Vec3 0.5 0 0)] /\
          near_cells (py_int (np_ceil (0.05 / SpatialHashGrid.cell_size g0)))
                     (cell_of (SpatialHashGrid.cell_size g0) p)
                     (cell_of (SpatialHashGrid.cell_size g0) (Vec3 0 0 0)).
Proof.
  destruct (insert_spec (SpatialHashGrid.init 0.1) 7 (Vec3 0 0 0))
    as (g0 & Hg0 & Hsize & _); [simpl; lra |].
  assert (Hc : SpatialHashGrid.cell_size g0 <> 0) by (rewrite Hsize; simpl; lra).
  exists g0; split; [exact Hg0 | split; [exact Hc |]].
  exact (query_exact g0 [(1%Z, Vec3 0.5 0 0)] (Vec3 0 0 0) 0.05 Hc).
Defined.

(** X22: a grid whose cell size is zero cannot be used: [insert] raises
    on every particle and [query_neighbors] raises
    [ZeroDivisionError] on every query. *)
Theorem zero_cell_size_raises (g : SpatialHashGrid.t) (id : Z) (position : vec3)
    (radius : R) :
  SpatialHashGrid.cell_size g = 0 ->
  (exists e, SpatialHashGrid.insert g id position = Raise e) /\
  SpatialHashGrid.query_neighbors g position radius = Raise ZeroDivisionError.
Proof.
  intros Hz; split.
  - unfold SpatialHashGrid.insert, SpatialHashGrid._hash_position, int_np_div.
    rewrite Hz.
    destruct (Req_dec_T 0 0) as [_ | Hn]; [| contradiction].
    destruct (Req_dec_T (vx position) 0); eexists; reflexivity.
  - unfold SpatialHashGrid.query_neighbors, py_div; rewrite Hz.
    destruct (Req_dec_T 0 0) as [_ | Hn]; [reflexivity | contradiction].
Qed.

Lemma zero_cell_size_raises_witness :
  SpatialHashGrid.cell_size (SpatialHashGrid.init 0) = 0 /\
  SpatialHashGrid.query_neighbors (SpatialHashGrid.init 0) (Vec3 1 2 3) 0.05 =
  Raise ZeroDivisionError.
Proof.
  assert (Hz : SpatialHashGrid.cell_size (SpatialHashGrid.init 0) = 0) by reflexivity.
  split; [exact Hz |].
  exact (proj2 (zero_cell_size_raises (SpatialHashGrid.init 0) 0 (Vec3 1 2 3) 0.05 Hz)).
Defined.

(** ** class GestureRecognizer *)

Lemma norm_vmul (d : vec3) (k : R) : norm (vmul d k) = Rabs k * norm d.
Proof.
  unfold norm.
  replace (dot (vmul d k) (vmul d k)) with (Rsqr k * dot d d)
    by (unfold dot, vmul, Rsqr; cbn [vx vy vz]; ring).
  rewrite sqrt_mult.
  - now rewrite sqrt_Rsqr_abs.
  - apply Rle_0_sqr.
  - unfold dot; nra.
Qed.

Lemma norm_unit (v : vec3) : 0 < norm v -> norm (vdiv v (norm v)) = 1.
Proof.
  intros Hn.
  assert (Hd : 0 <= dot v v) by (unfold dot; nra).
  assert (Hsq : norm v * norm v = dot v v) by (unfold norm; now apply sqrt_def).
  unfold norm at 1.
  replace (dot (vdiv v (norm v)) (vdiv v (norm v)))
    with (dot v v / (norm v * norm v))
    by (unfold dot, vdiv; cbn [vx vy vz]; field; lra).
  rewrite Hsq.
  replace (dot v v / dot v v) with 1 by (field; nra).
  apply sqrt_1.
Qed.

Lemma norm_forward : norm (Vec3 0 0 1) = 1.
Proof.
  unfold norm, dot; cbn [vx vy vz].
  replace (0 * 0 + 0 * 0 + 1 * 1) with 1 by ring.
  apply sqrt_1.
Qed.

Lemma norm_vzero : norm vzero = 0.
Proof.
  unfold norm, dot, vzero; cbn [vx vy vz].
  replace (0 * 0 + 0 * 0 + 0 * 0) with 0 by ring.
  apply sqrt_0.
Qed.

(** X23: the interaction forces.  [get_interaction_forces] returns one
    entry per tracked hand, at the hand's position and with the
    configured radius.  The strength of the force is the magnitude of
    the gesture whatever the speed of the hand: a hand moving faster
    than 0.01 per frame pushes along its motion, any other hand pushes
    along +z. *)
Theorem interaction_forces_shape (g : Gesture.t) :
  length (Gesture.get_interaction_forces g) = length (Gesture.hand_positions g) /\
  forall i pos f r,
    Gesture.get_interaction_forces g !! i = Some (pos, f, r) ->
    Gesture.hand_positions g !! i = Some pos /\
    r = Gesture.interaction_radius g /\
    norm f = Rabs (Gesture.force_magnitude g) /\
    (forall v, Gesture.hand_velocities g !! i = Some v -> 0.01 < norm v ->
               f = vmul v (Gesture.force_magnitude g / norm v)) /\
    (forall v, Gesture.hand_velocities g !! i = Some v -> norm v <= 0.01 ->
               f = Vec3 0 0 (Gesture.force_magnitude g)) /\
    (Gesture.hand_velocities g !! i = None ->
     f = Vec3 0 0 (Gesture.force_magnitude g)).
Proof.
  unfold Gesture.get_interaction_forces; split; [apply length_imap |].
  intros i pos f r Hi.
  rewrite list_lookup_imap in Hi.
  destruct (Gesture.hand_positions g !! i) as [pos' |]; [| discriminate].
  cbn [fmap option_fmap option_map] in Hi.
  unfold Gesture.interaction_force in Hi.
  injection Hi as <- <- <-.
  split; [reflexivity |]; split; [reflexivity |].
  set (k := Gesture.force_magnitude g).
  assert (Hpush : vmul (Vec3 0 0 1) k = Vec3 0 0 k)
    by (unfold vmul; cbn [vx vy vz]; f_equal; ring).
  destruct (Gesture.hand_velocities g !! i) as [v |].
  - destruct (Rgt_dec (norm v) 0.01) as [Hfast | Hslow].
    + split; [| split; [| split]].
      * rewrite norm_vmul, norm_unit by lra; ring.
      * intros v' [= <-] _.
        unfold vmul, vdiv; cbn [vx vy vz]; f_equal; field; lra.
      * intros v' [= <-] Hle; lra.
      * discriminate.
    + split; [| split; [| split]].
      * rewrite norm_vmul, norm_forward; ring.
      * intros v' [= <-] Hgt; unfold Rgt in Hslow; lra.
      * intros v' [= <-] _; exact Hpush.
      * discriminate.
  - rewrite norm_vzero.
    destruct (Rgt_dec 0 0.01) as [Hbad | _]; [lra |].
    split; [| split; [| split]].
    + rewrite norm_vmul, norm_forward; ring.
    + discriminate.
    + discriminate.
    + intros _; exact Hpush.
Qed.

Lemma hand_position_total (hand_landmarks : Gesture.hand) :
  (18 <= length hand_landmarks)%nat ->
  exists pos, Gesture.hand_position hand_landmarks = Some pos.
Proof.
  intros Hlen; unfold Gesture.hand_position, Gesture.key_points.
  cbn [Gesture.palm_sum].
  destruct (lookup_lt_is_Some_2 hand_landmarks 0) as [l0 ->]; [lia |].
  destruct (lookup_lt_is_Some_2 hand_landmarks 5) as [l5 ->]; [lia |].
  destruct (lookup_lt_is_Some_2 hand_landmarks 9) as [l9 ->]; [lia |].
  destruct (lookup_lt_is_Some_2 hand_landmarks 13) as [l13 ->]; [lia |].
  destruct (lookup_lt_is_Some_2 hand_landmarks 17) as [l17 ->]; [lia |].
  eexists; reflexivity.
Qed.

Lemma detect_gesture_total (hand_landmarks : Gesture.hand) :
  full_hand hand_landmarks ->
  exists gst, Gesture._detect_gesture hand_landmarks = Some gst.
Proof.
  unfold full_hand; intros Hlen; unfold Gesture._detect_gesture.
  destruct (lookup_lt_is_Some_2 hand_landmarks 4) as [l4 ->]; [lia |].
  destruct (lookup_lt_is_Some_2 hand_landmarks 8) as [l8 ->]; [lia |].
  destruct (lookup_lt_is_Some_2 hand_landmarks 12) as [l12 ->]; [lia |].
  destruct (lookup_lt_is_Some_2 hand_landmarks 16) as [l16 ->]; [lia |].
  destruct (lookup_lt_is_Some_2 hand_landmarks 20) as [l20 ->]; [lia |].
  destruct (lookup_lt_is_Some_2 hand_landmarks 5) as [l5 ->]; [lia |].
  destruct (lookup_lt_is_Some_2 hand_landmarks 9) as [l9 ->]; [lia |].
  destruct (lookup_lt_is_Some_2 hand_landmarks 13) as [l13 ->]; [lia |].
  destruct (lookup_lt_is_Some_2 hand_landmarks 17) as [l17 ->]; [lia |].
  eexists; reflexivity.
Qed.

Lemma detect_gesture_short (hand_landmarks : Gesture.hand) :
  (length hand_landmarks < 21)%nat ->
  Gesture._detect_gesture hand_landmarks = None.
Proof.
  intros Hlen; unfold Gesture._detect_gesture.
  rewrite (lookup_ge_None_2 hand_landmarks 20) by lia.
  destruct (hand_landmarks !! 4%nat); [| reflexivity].
  destruct (hand_landmarks !! 8%nat); [| reflexivity].
  destruct (hand_landmarks !! 12%nat); [| reflexivity].
  destruct (hand_landmarks !! 16%nat); reflexivity.
Qed.

Lemma hands_loop_ok (previous : list vec3) (hands : list Gesture.hand) :
  forall ps hand_idx acc,
    Forall2 (fun h pos => Gesture.hand_position h = Some pos) hands ps ->
    Gesture.hands_loop previous hands hand_idx acc =
    Some (acc.1 ++ ps,
          acc.2 ++ imap (fun k => hand_velocity previous (hand_idx + k)) ps).
Proof.
  induction hands as [| h hands IH]; intros ps hand_idx acc Hps.
  - apply Forall2_nil_inv_l in Hps as ->; cbn [Gesture.hands_loop imap].
    rewrite !app_nil_r; now destruct acc.
  - apply Forall2_cons_inv_l in Hps as (pos & ps' & Hpos & Hps' & ->).
    cbn [Gesture.hands_loop]; rewrite Hpos; cbn [mbind option_bind].
    rewrite (IH ps' (S hand_idx) _ Hps'); cbn [fst snd imap].
    rewrite <- !app_assoc; cbn [app].
    assert (Htail : imap (fun k => hand_velocity previous (S hand_idx + k)) ps' =
                    imap ((fun k => hand_velocity previous (hand_idx + k)) ∘ S) ps').
    { apply imap_ext; intros k q _; cbn.
      now replace (hand_idx + S k)%nat with (S (hand_idx + k)) by lia. }
    rewrite Htail, Nat.add_0_r; reflexivity.
Qed.

Lemma hands_loop_inv (previous : list vec3) (hands : list Gesture.hand) :
  forall hand_idx acc res,
    Gesture.hands_loop previous hands hand_idx acc = Some res ->
    exists ps, Forall2 (fun h pos => Gesture.hand_position h = Some pos) hands ps.
Proof.
  induction hands as [| h hands IH]; intros hand_idx acc res Hres.
  - exists []; constructor.
  - cbn [Gesture.hands_loop] in Hres.
    destruct (Gesture.hand_position h) as [pos |] eqn:Hpos; [| discriminate].
    cbn [mbind option_bind] in Hres.
    destruct (IH _ _ _ Hres) as (ps & Hps).
    exists (pos :: ps); now constructor.
Qed.

Lemma process_frame_hands (g : Gesture.t) (first : Gesture.hand)
    (rest : list Gesture.hand) (ps : list vec3) (gst : Gesture.gesture) :
  Forall2 (fun h pos => Gesture.hand_position h = Some pos) (first :: rest) ps ->
  Gesture._detect_gesture first = Some gst ->
  Gesture.process_frame g (Some (first :: rest)) =
  Some {| Gesture.interaction_radius := Gesture.interaction_radius g;
          Gesture.force_multiplier := Gesture.force_multiplier g;
          Gesture.hand_positions := ps;
          Gesture.hand_velocities :=
            imap (hand_velocity (Gesture.previous_positions g)) ps;
          Gesture.previous_positions := ps;
          Gesture.gesture_type := Some gst |}.
Proof.
  intros Hps Hgst; unfold Gesture.process_frame.
  rewrite (hands_loop_ok _ _ ps 0 ([], []) Hps), Hgst.
  reflexivity.
Qed.

Lemma process_frame_inv (g g' : Gesture.t) (first : Gesture.hand)
    (rest : list Gesture.hand) :
  Gesture.process_frame g (Some (first :: rest)) = Some g' ->
  exists ps gst,
    Forall2 (fun h pos => Gesture.hand_position h = Some pos) (first :: rest) ps /\
    Gesture._detect_gesture first = Some gst.
Proof.
  unfold Gesture.process_frame; intros Hg'.
  destruct (Gesture.hands_loop _ _ _ _) as [lists |] eqn:Hloop; [| discriminate].
  cbn [mbind option_bind] in Hg'.
  destruct (Gesture._detect_gesture first) as [gst |] eqn:Hgst; [| discriminate].
  destruct (hands_loop_inv _ _ _ _ _ Hloop) as (ps & Hps).
  now exists ps, gst.
Qed.

Lemma full_hands_positions (hands : list Gesture.hand) :
  Forall full_hand hands ->
  exists ps, Forall2 (fun h pos => Gesture.hand_position h = Some pos) hands ps.
Proof.
  induction 1 as [| h hands Hh _ (ps & Hps)]; [exists []; constructor |].
  destruct (hand_position_total h) as (pos & Hpos); [unfold full_hand in Hh; lia |].
  exists (pos :: ps); now constructor.
Qed.

(** X24: a frame with hands.  When every detected hand has the 21
    landmarks of the hand model, [process_frame] succeeds and stores one
    position and one velocity per hand; the velocity of a hand is its
    move since the previous frame's hand of the same index, and zero
    when there was none.  The positions become the next frame's previous
    positions and a gesture is set.  When the first hand has fewer than
    21 landmarks the call raises. *)
Theorem process_frame_tracks (g : Gesture.t) (first : Gesture.hand)
    (rest : list Gesture.hand) :
  (Forall full_hand (first :: rest) ->
   exists g',
     Gesture.process_frame g (Some (first :: rest)) = Some g' /\
     length (Gesture.hand_positions g') = S (length rest) /\
     length (Gesture.hand_velocities g') = S (length rest) /\
     Gesture.previous_positions g' = Gesture.hand_positions g' /\
     is_Some (Gesture.gesture_type g') /\
     Gesture.interaction_radius g' = Gesture.interaction_radius g /\
     Gesture.force_multiplier g' = Gesture.force_multiplier g /\
     forall i pos,
       Gesture.hand_positions g' !! i = Some pos ->
       Gesture.hand_velocities g' !! i =
       Some (match Gesture.previous_positions g !! i with
             | Some prev => vsub pos prev
             | None => vzero
             end)) /\
  ((length first < 21)%nat ->
   Gesture.process_frame g (Some (first :: rest)) = None).
Proof.
  split.
  - intros Hfull.
    destruct (full_hands_positions _ Hfull) as (ps & Hps).
    destruct (detect_gesture_total first) as (gst & Hgst);
      [now apply Forall_cons_1 in Hfull |].
    eexists; split; [exact (process_frame_hands g first rest ps gst Hps Hgst) |].
    cbn [Gesture.hand_positions Gesture.hand_velocities Gesture.previous_positions
         Gesture.gesture_type Gesture.interaction_radius Gesture.force_multiplier].
    apply Forall2_length in Hps; cbn [length] in Hps.
    rewrite length_imap.
    repeat split; try congruence; [eauto |].
    intros i pos Hi; rewrite list_lookup_imap, Hi; reflexivity.
  - intros Hshort; unfold Gesture.process_frame.
    rewrite (detect_gesture_short first Hshort).
    now destruct (Gesture.hands_loop _ _ _ _).
Qed.

Lemma full_flat_hand (l : Gesture.Landmark) : full_hand (flat_hand l).
Proof. unfold full_hand, flat_hand; rewrite length_replicate; lia. Qed.

Lemma process_centre_frame (g : Gesture.t) :
  exists g', Gesture.process_frame g centre_frame = Some g'.
Proof.
  destruct (full_hands_positions [flat_hand centre_landmark]) as (ps & Hps);
    [apply Forall_cons; split; [apply full_flat_hand | apply Forall_nil_2] |].
  destruct (detect_gesture_total (flat_hand centre_landmark)) as (gst & Hgst);
    [apply full_flat_hand |].
  eexists; exact (process_frame_hands g _ [] ps gst Hps Hgst).
Qed.

Lemma hand_position_range (hand_landmarks : Gesture.hand) (pos : vec3) :
  Gesture.hand_position hand_landmarks = Some pos ->
  Forall in_unit_cube hand_landmarks ->
  -1 <= vx pos <= 1 /\ -1 <= vy pos <= 1 /\ 0 <= vz pos <= 2.
Proof.
  unfold Gesture.hand_position, Gesture.key_points; cbn [Gesture.palm_sum].
  intros Hpos Hcube.
  destruct (hand_landmarks !! 0%nat) as [l0 |] eqn:H0; [| discriminate].
  destruct (hand_landmarks !! 5%nat) as [l5 |] eqn:H5; [| discriminate].
  destruct (hand_landmarks !! 9%nat) as [l9 |] eqn:H9; [| discriminate].
  destruct (hand_landmarks !! 13%nat) as [l13 |] eqn:H13; [| discriminate].
  destruct (hand_landmarks !! 17%nat) as [l17 |] eqn:H17; [| discriminate].
  cbn [mbind option_bind fst snd length] in Hpos.
  injection Hpos as <-; cbn [vx vy vz].
  destruct (Forall_lookup_1 _ _ _ _ Hcube H0) as (? & ? & ?).
  destruct (Forall_lookup_1 _ _ _ _ Hcube H5) as (? & ? & ?).
  destruct (Forall_lookup_1 _ _ _ _ Hcube H9) as (? & ? & ?).
  destruct (Forall_lookup_1 _ _ _ _ Hcube H13) as (? & ? & ?).
  destruct (Forall_lookup_1 _ _ _ _ Hcube H17) as (? & ? & ?).
  replace (INR 5) with 5 by (simpl; lra).
  repeat split; lra.
Qed.

(** X25: the world coordinates of a hand.  After a successful
    [process_frame] every hand whose landmarks have normalised
    coordinates between 0 and 1 is placed at a position with x and y
    between -1 and 1 and z between 0 and 2. *)
Theorem hand_positions_in_range (g g' : Gesture.t) (hands : list Gesture.hand) :
  Gesture.process_frame g (Some hands) = Some g' ->
  Forall (Forall in_unit_cube) hands ->
  Forall (fun pos => -1 <= vx pos <= 1 /\ -1 <= vy pos <= 1 /\ 0 <= vz pos <= 2)
         (Gesture.hand_positions g').
Proof.
  intros Hg' Hcube.
  destruct hands as [| first rest].
  - injection Hg' as <-; constructor.
  - destruct (process_frame_inv g g' first rest Hg') as (ps & gst & Hps & Hgst).
    rewrite (process_frame_hands g first rest ps gst Hps Hgst) in Hg'.
    injection Hg' as <-; cbn [Gesture.hand_positions].
    clear Hgst; revert Hcube Hps; generalize (first :: rest) as hl.
    intros hl Hcube Hps; induction Hps as [| h pos hl ps Hpos _ IH];
      [constructor |].
    apply Forall_cons_1 in Hcube as [Hh Hrest].
    constructor; [exact (hand_position_range h pos Hpos Hh) | exact (IH Hrest)].
Qed.

(** One hand at the centre of the image. *)
Lemma hand_positions_in_range_witness :
  exists g',
    Gesture.process_frame Gesture.init centre_frame = Some g' /\
    Forall (Forall in_unit_cube) [flat_hand centre_landmark] /\
    Forall (fun pos => -1 <= vx pos <= 1 /\ -1 <= vy pos <= 1 /\ 0 <= vz pos <= 2)
           (Gesture.hand_positions g').
Proof.
  destruct (process_centre_frame Gesture.init) as (g' & Hg').
  assert (Hcube : Forall (Forall in_unit_cube) [flat_hand centre_landmark]).
  { apply Forall_cons; split; [| apply Forall_nil_2].
    unfold flat_hand; apply Forall_replicate.
    unfold in_unit_cube, centre_landmark;
      cbn [Gesture.lx Gesture.ly Gesture.lz]; lra. }
  exists g'; split; [exact Hg' | split; [exact Hcube |]].
  exact (hand_positions_in_range Gesture.init g' [flat_hand centre_landmark] Hg' Hcube).
Defined.

Lemma vsub_self (v : vec3) : vsub v v = vzero.
Proof.
  destruct v as [x y z]; unfold vsub, vzero; cbn [vx vy vz].
  replace (x - x) with 0 by ring.
  replace (y - y) with 0 by ring.
  replace (z - z) with 0 by ring.
  reflexivity.
Qed.

(** X26: a hand held still.  When [process_frame] has handled a frame
    and the next frame shows the same landmarks, the second call keeps
    the positions and gives every hand the velocity zero, so every
    interaction force is the default push along +z at the full magnitude
    of the gesture. *)
Theorem still_hand_pushes_forward (g g1 : Gesture.t) (hands : list Gesture.hand) :
  Gesture.process_frame g (Some hands) = Some g1 ->
  exists g2,
    Gesture.process_frame g1 (Some hands) = Some g2 /\
    Gesture.hand_positions g2 = Gesture.hand_positions g1 /\
    Gesture.gesture_type g2 = Gesture.gesture_type g1 /\
    Forall (fun v => v = vzero) (Gesture.hand_velocities g2) /\
    Gesture.get_interaction_forces g2 =
    map (fun pos => (pos, Vec3 0 0 (Gesture.force_magnitude g1),
                     Gesture.interaction_radius g))
        (Gesture.hand_positions g1).
Proof.
  intros Hg1.
  destruct hands as [| first rest].
  - injection Hg1 as <-; eexists; split; [reflexivity |].
    cbn; repeat split; constructor.
  - destruct (process_frame_inv g g1 first rest Hg1) as (ps & gst & Hps & Hgst).
    rewrite (process_frame_hands g first rest ps gst Hps Hgst) in Hg1.
    injection Hg1 as <-.
    eexists; split; [exact (process_frame_hands _ first rest ps gst Hps Hgst) |].
    cbn [Gesture.hand_positions Gesture.hand_velocities Gesture.previous_positions
         Gesture.gesture_type Gesture.interaction_radius Gesture.force_multiplier].
    assert (Hvel : forall i pos, ps !! i = Some pos ->
                     imap (hand_velocity ps) ps !! i = Some vzero).
    { intros i pos Hi; rewrite list_lookup_imap, Hi; cbn.
      unfold hand_velocity; rewrite Hi; now rewrite vsub_self. }
    split; [reflexivity |]; split; [reflexivity |]; split.
    + apply Forall_lookup; intros i v Hv.
      destruct (ps !! i) as [pos |] eqn:Hi.
      * rewrite (Hvel i pos Hi) in Hv; congruence.
      * rewrite list_lookup_imap, Hi in Hv; discriminate.
    + unfold Gesture.get_interaction_forces; cbn [Gesture.hand_positions].
      apply list_eq; intros i.
      rewrite list_lookup_imap, list_lookup_fmap.
      destruct (ps !! i) as [pos |] eqn:Hi; [| reflexivity].
      cbn [fmap option_fmap option_map].
      unfold Gesture.interaction_force;
        cbn [Gesture.hand_velocities Gesture.interaction_radius].
      rewrite (Hvel i pos Hi), norm_vzero.
      destruct (Rgt_dec 0 0.01) as [Hbad | _]; [lra |].
      unfold Gesture.force_magnitude, vmul;
        cbn [vx vy vz Gesture.gesture_type Gesture.force_multiplier].
      match goal with
      | |- context [Vec3 (0 * ?k) (0 * ?k) (1 * ?k)] =>
          replace (Vec3 (0 * k) (0 * k) (1 * k)) with (Vec3 0 0 k)
            by (f_equal; ring)
      end.
      reflexivity.
Qed.

(** The centred hand shown in two frames in a row. *)
Lemma still_hand_pushes_forward_witness :
  exists g1 g2,
    Gesture.process_frame Gesture.init centre_frame = Some g1 /\
    Gesture.process_frame g1 centre_frame = Some g2 /\
    Gesture.hand_positions g2 = Gesture.hand_positions g1 /\
    Gesture.gesture_type g2 = Gesture.gesture_type g1 /\
    Forall (fun v => v = vzero) (Gesture.hand_velocities g2) /\
    Gesture.get_interaction_forces g2 =
    map (fun pos => (pos, Vec3 0 0 (Gesture.force_magnitude g1),
                     Gesture.interaction_radius Gesture.init))
        (Gesture.hand_positions g1).
Proof.
  destruct (process_centre_frame Gesture.init) as (g1 & Hg1).
  destruct (still_hand_pushes_forward Gesture.init g1 [flat_hand centre_landmark] Hg1)
    as (g2 & Hg2 & Hrest).
  exists g1, g2; split; [exact Hg1 | split; [exact Hg2 | exact Hrest]].
Defined.

(** ** main.py: hands acting on the fluid *)

Lemma add_external_force_lookup (s : Simulator) (pos : vec3) (radius : R) (f : vec3)
    (i : nat) :
  particles (add_external_force s pos radius f) !! i =
  external_force_body s pos radius f (particles s) i <$> particles s !! i.
Proof. now rewrite add_external_force_particles, list_lookup_imap. Qed.

Lemma add_external_force_positions (s : Simulator) (pos : vec3) (radius : R)
    (f : vec3) :
  get_particle_positions (add_external_force s pos radius f) =
  get_particle_positions s.
Proof.
  unfold get_particle_positions; rewrite add_external_force_particles.
  apply map_imap_preserved; intros i p; unfold external_force_body.
  now destruct (Rlt_dec _ _).
Qed.

Lemma add_external_force_dt (s : Simulator) (pos : vec3) (radius : R) (f : vec3) :
  dt (add_external_force s pos radius f) = dt s.
Proof. reflexivity. Qed.

Lemma apply_interaction_forces_frame (forces : list (vec3 * vec3 * R)) :
  forall s,
    get_particle_positions (apply_interaction_forces s forces) =
    get_particle_positions s /\
    dt (apply_interaction_forces s forces) = dt s /\
    forall i p,
      particles s !! i = Some p ->
      Forall (fun pfr => pfr.2 <= norm (vsub (position p) pfr.1.1)) forces ->
      particles (apply_interaction_forces s forces) !! i = Some p.
Proof.
  induction forces as [| [[pos f] r] forces IH]; intros s.
  - cbn; repeat split; auto.
  - unfold apply_interaction_forces; cbn [fold_left fst snd].
    fold (apply_interaction_forces (add_external_force s pos r f) forces).
    destruct (IH (add_external_force s pos r f)) as (Hpos & Hdt & Hfar).
    rewrite Hpos, Hdt, add_external_force_positions.
    split; [reflexivity |]; split; [reflexivity |].
    intros i p Hi Hall.
    apply Forall_cons_1 in Hall as [Hhere Hrest]; cbn [fst snd] in Hhere.
    apply Hfar; [| exact Hrest].
    rewrite add_external_force_lookup, Hi; cbn [fmap option_fmap option_map].
    unfold external_force_body.
    destruct (Rlt_dec _ _); [lra | reflexivity].
Qed.

(** X27: what the hands can change.  [process_interactions] moves no
    particle and keeps the time step: it only changes velocities, and a
    particle that is at least [interaction_radius] away from every
    tracked hand is left exactly as it was. *)
Theorem process_interactions_frame (s s' : Simulator) (g g' : Gesture.t)
    (multi_hand_landmarks : option (list Gesture.hand)) :
  process_interactions s g multi_hand_landmarks = Some (s', g') ->
  get_particle_positions s' = get_particle_positions s /\
  dt s' = dt s /\
  forall i p,
    particles s !! i = Some p ->
    Forall (fun hand_pos =>
              Gesture.interaction_radius g <= norm (vsub (position p) hand_pos))
           (Gesture.hand_positions g') ->
    particles s' !! i = Some p.
Proof.
  unfold process_interactions; intros Hpi.
  destruct (Gesture.process_frame g multi_hand_landmarks) as [g1 |] eqn:Hg1;
    [| discriminate].
  cbn [mbind option_bind] in Hpi; injection Hpi as <- <-.
  destruct (apply_interaction_forces_frame (Gesture.get_interaction_forces g1) s)
    as (Hpos & Hdt & Hfar).
  split; [exact Hpos |]; split; [exact Hdt |].
  intros i p Hi Hall; apply Hfar; [exact Hi |].
  assert (Hrad : Gesture.interaction_radius g1 = Gesture.interaction_radius g).
  { unfold Gesture.process_frame in Hg1.
    destruct multi_hand_landmarks as [[| first rest] |];
      try (injection Hg1 as <-; reflexivity).
    destruct (Gesture.hands_loop _ _ _ _); [| discriminate].
    destruct (Gesture._detect_gesture first); [| discriminate].
    injection Hg1 as <-; reflexivity. }
  apply Forall_lookup; intros k [[pos f] r] Hk.
  unfold Gesture.get_interaction_forces in Hk.
  rewrite list_lookup_imap in Hk.
  destruct (Gesture.hand_positions g1 !! k) as [hp |] eqn:Hhp; [| discriminate].
  cbn [fmap option_fmap option_map] in Hk; unfold Gesture.interaction_force in Hk.
  injection Hk as <- _ <-; cbn [fst snd].
  rewrite Hrad; exact (Forall_lookup_1 _ _ _ _ Hall Hhp).
Qed.

(** The centred hand over the two-particle simulator. *)
Lemma process_interactions_frame_witness :
  exists s' g',
    process_interactions pair_state Gesture.init centre_frame = Some (s', g') /\
    get_particle_positions s' = get_particle_positions pair_state /\
    dt s' = dt pair_state.
Proof.
  destruct (process_centre_frame Gesture.init) as (g' & Hg').
  assert (Hpi : process_interactions pair_state Gesture.init centre_frame =
                Some (apply_interaction_forces pair_state
                        (Gesture.get_interaction_forces g'), g'))
    by (unfold process_interactions; now rewrite Hg').
  destruct (process_interactions_frame _ _ _ _ _ Hpi) as (Hpos & Hdt & _).
  eexists _, g'; split; [exact Hpi | split; [exact Hpos | exact Hdt]].
Defined.

(** X28: a frame without hands.  When the detector reports no hand
    ([None] or an empty list) [process_frame] empties the positions and
    velocities but keeps the previous positions and the gesture, no
    interaction force is produced and [process_interactions] leaves the
    simulator as it was. *)
Theorem no_hands_no_force (s : Simulator) (g : Gesture.t)
    (multi_hand_landmarks : option (list Gesture.hand)) :
  multi_hand_landmarks = None \/ multi_hand_landmarks = Some [] ->
  exists g',
    Gesture.process_frame g multi_hand_landmarks = Some g' /\
    Gesture.hand_positions g' = [] /\
    Gesture.hand_velocities g' = [] /\
    Gesture.previous_positions g' = Gesture.previous_positions g /\
    Gesture.gesture_type g' = Gesture.gesture_type g /\
    Gesture.get_interaction_forces g' = [] /\
    process_interactions s g multi_hand_landmarks = Some (s, g').
Proof.
  intros [-> | ->]; eexists; repeat split.
Qed.

Lemma no_hands_no_force_witness :
  exists g',
    Gesture.process_frame Gesture.init None = Some g' /\
    process_interactions pair_state Gesture.init None = Some (pair_state, g').
Proof.
  destruct (no_hands_no_force pair_state Gesture.init None) as (g' & Hg' & Hrest);
    [now left |].
  exists g'; split; [exact Hg' | apply Hrest].
Defined.
